(** * The job-seeker dashboard controller ([jobseekerDashboard.js])

    A shallow embedding of the [JobseekerDashboard] object: the values the
    script receives from the two JSON endpoints, the part of the document it
    reads and writes, its helpers ([getStatusBadge], [formatDate],
    [renderEmptyState], [setLoading], [viewApplication]), the two fetching
    methods ([loadAppliedJobs], [updateKPIs]) and the loader that runs them
    as one group ([loadDashboardData]). *)

From Stdlib Require Import ZArith List String Ascii Bool Lia.
From Stdlib Require Import DecimalString DecimalZ.
Import ListNotations.

Local Open Scope string_scope.
Local Open Scope Z_scope.
Set Warnings "-register-all".

(** ** Text *)

Module Text.

(** The double-quote and line-feed characters of the script's literals. *)
Definition dq : string := String (ascii_of_nat 34) EmptyString.
Definition nl : string := String (ascii_of_nat 10) EmptyString.

(** [quoted s] is [s] between double quotes, as in an HTML attribute. *)
Definition quoted (s : string) : string := dq ++ s ++ dq.

(** Decimal text of an integer: what [String(n)] gives for an
    integer-valued number in the safe range. *)
Definition decimal (z : Z) : string := NilZero.string_of_int (Z.to_int z).

Definition lower_ascii (c : ascii) : ascii :=
  let n := nat_of_ascii c in
  if (Nat.leb 65 n && Nat.leb n 90)%bool then ascii_of_nat (n + 32) else c.

(** [String.prototype.toLowerCase], on the ASCII letters.  The script only
    uses the result as a property key.  The one character outside ASCII
    whose lower case is an ASCII letter is U+212A (to [k]), and no
    lower-case key of the objects looked up here contains a [k]; so which
    key is found is the same as with the full Unicode mapping. *)
Fixpoint toLowerCase (s : string) : string :=
  match s with
  | EmptyString => EmptyString
  | String c rest => String (lower_ascii c) (toLowerCase rest)
  end.

(** [Array.prototype.join('')] on an array of strings. *)
Definition join (parts : list string) : string := String.concat "" parts.

(** [contains part s]: [part] occurs in [s]. *)
Definition contains (part s : string) : Prop :=
  exists before after, s = before ++ part ++ after.

(** [strip_prefix p s]: what follows [p] at the start of [s]. *)
Fixpoint strip_prefix (p s : string) : option string :=
  match p, s with
  | EmptyString, _ => Some s
  | String a p', String b s' =>
      if Ascii.eqb a b then strip_prefix p' s' else None
  | String _ _, EmptyString => None
  end.

(** [split_at part s]: what stands before and after the first occurrence
    of [part] in [s]. *)
Fixpoint split_at (part s : string) : option (string * string) :=
  match strip_prefix part s with
  | Some after => Some (EmptyString, after)
  | None =>
      match s with
      | EmptyString => None
      | String c s' =>
          match split_at part s' with
          | Some (before, after) => Some (String c before, after)
          | None => None
          end
      end
  end.

End Text.

(** ** Values and completions *)

Module Js.
Import Text.

(** What the script can throw or see rejected. *)
Inductive JsError :=
| TypeError (what : string)
| FetchFailed            (* [fetch] rejected: the network failed *)
| JsonSyntaxError        (* [response.json()] rejected: the body did not decode *)
| CollaboratorError.     (* raised by code outside this file *)

(** An evaluation either yields a value or throws. *)
Inductive Completion (A : Type) :=
| Normal (a : A)
| Throw (e : JsError).
Arguments Normal {A} a.
Arguments Throw {A} e.

Definition cbind {A B} (c : Completion A) (k : A -> Completion B) : Completion B :=
  match c with
  | Normal a => k a
  | Throw e => Throw e
  end.

(** Built-in objects reachable from a plain object through its prototype. *)
Inductive Builtin :=
| ObjectConstructor
| ObjectPrototype
| PrototypeMethod (name : string).

(** Values: what [JSON.parse] produces (numbers are the integer-valued ones
    of the safe range, an object holds one binding per key), [undefined],
    and the built-ins above. *)
Inductive JsValue :=
| JUndefined
| JNull
| JBool (b : bool)
| JNum (n : Z)
| JStr (s : string)
| JArr (items : list JsValue)
| JObj (fields : list (string * JsValue))
| JBuiltin (b : Builtin).

Fixpoint own_property (fields : list (string * JsValue)) (key : string) : option JsValue :=
  match fields with
  | [] => None
  | (k, v) :: rest => if String.eqb k key then Some v else own_property rest key
  end.

(** The function-valued members of [Object.prototype]. *)
Definition object_prototype_methods : list string :=
  [ "hasOwnProperty"; "isPrototypeOf"; "propertyIsEnumerable";
    "toLocaleString"; "toString"; "valueOf";
    "__defineGetter__"; "__defineSetter__";
    "__lookupGetter__"; "__lookupSetter__" ].

(** A property a plain object inherits: [constructor], the [__proto__]
    accessor, and the methods above. *)
Definition inherited_property (key : string) : option JsValue :=
  if String.eqb key "constructor" then Some (JBuiltin ObjectConstructor)
  else if String.eqb key "__proto__" then Some (JBuiltin ObjectPrototype)
  else if existsb (String.eqb key) object_prototype_methods
       then Some (JBuiltin (PrototypeMethod key))
  else None.

(** [v[key]] and [v.key].  Own properties first, then the prototype of a
    plain object; [length] of arrays and strings (of a string: compared
    with zero only, so counted in bytes here).  On [null] and [undefined]
    the access throws.  The members arrays and primitives inherit from
    their own prototypes are left out: the script calls two of them
    ([map], [toLowerCase], below) and reads no other. *)
Definition get_prop (v : JsValue) (key : string) : Completion JsValue :=
  match v with
  | JUndefined => Throw (TypeError "cannot read properties of undefined")
  | JNull => Throw (TypeError "cannot read properties of null")
  | JObj fields =>
      match own_property fields key with
      | Some x => Normal x
      | None =>
          match inherited_property key with
          | Some x => Normal x
          | None => Normal JUndefined
          end
      end
  | JArr items =>
      if String.eqb key "length" then Normal (JNum (Z.of_nat (List.length items)))
      else Normal JUndefined
  | JStr s =>
      if String.eqb key "length" then Normal (JNum (Z.of_nat (String.length s)))
      else Normal JUndefined
  | JBool _ | JNum _ | JBuiltin _ => Normal JUndefined
  end.

(** [ToBoolean]. *)
Definition truthy (v : JsValue) : bool :=
  match v with
  | JUndefined | JNull => false
  | JBool b => b
  | JNum n => negb (n =? 0)
  | JStr s => negb (String.eqb s "")
  | JArr _ | JObj _ | JBuiltin _ => true
  end.

(** [a || b] *)
Definition or_else (a b : JsValue) : JsValue := if truthy a then a else b.

(** [v === 0] *)
Definition is_zero (v : JsValue) : bool :=
  match v with
  | JNum n => n =? 0
  | _ => false
  end.

Definition native_code (name : string) : string :=
  "function " ++ name ++ "() { [native code] }".

(** [ToString], as a template literal and [textContent] apply it.  A plain
    object prints as [[object Object]] through the inherited [toString];
    when it has an own [toString] (from JSON: not callable) the conversion
    falls to [valueOf], finds no primitive and throws.  An array prints
    its elements separated by commas, [null] and [undefined] as nothing. *)
Fixpoint to_string (v : JsValue) : Completion string :=
  match v with
  | JUndefined => Normal "undefined"
  | JNull => Normal "null"
  | JBool true => Normal "true"
  | JBool false => Normal "false"
  | JNum n => Normal (decimal n)
  | JStr s => Normal s
  | JArr items =>
      let element x :=
        match x with
        | JUndefined | JNull => Normal ""
        | _ => to_string x
        end in
      (fix joined (l : list JsValue) : Completion string :=
         match l with
         | [] => Normal ""
         | [x] => element x
         | x :: rest =>
             cbind (element x) (fun s =>
             cbind (joined rest) (fun t => Normal (s ++ "," ++ t)))
         end) items
  | JObj fields =>
      match own_property fields "toString" with
      | Some _ => Throw (TypeError "cannot convert object to primitive value")
      | None => Normal "[object Object]"
      end
  | JBuiltin ObjectConstructor => Normal (native_code "Object")
  | JBuiltin ObjectPrototype => Normal "[object Object]"
  | JBuiltin (PrototypeMethod name) => Normal (native_code name)
  end.

(** [status.toLowerCase()]: only a string has the method; on any other
    value the call throws. *)
Definition call_toLowerCase (v : JsValue) : Completion string :=
  match v with
  | JStr s => Normal (toLowerCase s)
  | JUndefined => Throw (TypeError "cannot read properties of undefined")
  | JNull => Throw (TypeError "cannot read properties of null")
  | _ => Throw (TypeError "toLowerCase is not a function")
  end.

(** [arr.map(f)].  Only an array has the method; the callback runs on the
    elements in order and the first throw ends the call. *)
Fixpoint map_elements {A} (f : JsValue -> Completion A) (l : list JsValue)
  : Completion (list A) :=
  match l with
  | [] => Normal []
  | x :: rest =>
      cbind (f x) (fun y =>
      cbind (map_elements f rest) (fun ys => Normal (y :: ys)))
  end.

Definition call_map {A} (v : JsValue) (f : JsValue -> Completion A)
  : Completion (list A) :=
  match v with
  | JArr items => map_elements f items
  | JUndefined => Throw (TypeError "cannot read properties of undefined")
  | JNull => Throw (TypeError "cannot read properties of null")
  | _ => Throw (TypeError "map is not a function")
  end.

End Js.

(** ** Dates *)

Module JsDate.
Import Text Js.

(** What the script takes from the browser it runs in: the offset of local
    time from UTC (milliseconds, at a given UTC instant), what [Date.parse]
    makes of a string outside the date-only ISO form (left to the
    implementation by the language), and how the locale prints a year
    before year 1. *)
Record Host := {
  tz_offset : Z -> Z;
  host_parse : string -> option Z;
  era_year : Z -> string
}.

Definition msPerDay : Z := 86400000.
Definition maxTime : Z := 8640000000000000.

(** Day number (days since 1970-01-01) of a date of the proleptic Gregorian
    calendar, and back. *)
Definition days_from_civil (y m d : Z) : Z :=
  let y' := if m <=? 2 then y - 1 else y in
  let era := y' / 400 in
  let yoe := y' - era * 400 in
  let doy := (153 * (if 2 <? m then m - 3 else m + 9) + 2) / 5 + d - 1 in
  let doe := yoe * 365 + yoe / 4 - yoe / 100 + doy in
  era * 146097 + doe - 719468.

Definition civil_from_days (z : Z) : Z * Z * Z :=
  let z := z + 719468 in
  let era := z / 146097 in
  let doe := z - era * 146097 in
  let yoe := (doe - doe / 1460 + doe / 36524 - doe / 146096) / 365 in
  let doy := doe - (365 * yoe + yoe / 4 - yoe / 100) in
  let mp := (5 * doy + 2) / 153 in
  let d := doy - (153 * mp + 2) / 5 + 1 in
  let m := if mp <? 10 then mp + 3 else mp - 9 in
  (if m <=? 2 then yoe + era * 400 + 1 else yoe + era * 400, m, d).

Definition is_leap (y : Z) : bool :=
  ((y mod 4 =? 0) && negb (y mod 100 =? 0) || (y mod 400 =? 0))%bool.

Definition days_in_month (y m : Z) : Z :=
  if m =? 2 then (if is_leap y then 29 else 28)
  else if (m =? 4) || (m =? 6) || (m =? 9) || (m =? 11) then 30
  else 31.

Definition digit (c : ascii) : option Z :=
  let n := nat_of_ascii c in
  if (Nat.leb 48 n && Nat.leb n 57)%bool then Some (Z.of_nat n - 48) else None.

Definition is_hyphen (c : ascii) : bool := Nat.eqb (nat_of_ascii c) 45.

(** The date-only form [YYYY-MM-DD] of the language's date-time string
    format, naming a day that exists. *)
Definition parse_iso_date (s : string) : option (Z * Z * Z) :=
  match list_ascii_of_string s with
  | [y1; y2; y3; y4; h1; m1; m2; h2; d1; d2] =>
      match digit y1, digit y2, digit y3, digit y4,
            digit m1, digit m2, digit d1, digit d2 with
      | Some a, Some b, Some c, Some e, Some f, Some g, Some h, Some i =>
          let y := 1000 * a + 100 * b + 10 * c + e in
          let m := 10 * f + g in
          let d := 10 * h + i in
          if (is_hyphen h1 && is_hyphen h2 && (1 <=? m) && (m <=? 12)
              && (1 <=? d) && (d <=? days_in_month y m))%bool
          then Some (y, m, d) else None
      | _, _, _, _, _, _, _, _ => None
      end
  | _ => None
  end.

(** [Date.parse]: a date-only string is midnight UTC of that day. *)
Definition Date_parse (host : Host) (s : string) : option Z :=
  match parse_iso_date s with
  | Some (y, m, d) => Some (days_from_civil y m d * msPerDay)
  | None => host_parse host s
  end.

Definition time_clip (t : Z) : option Z :=
  if Z.abs t <=? maxTime then Some t else None.

(** [new Date(v)]: the time value, [None] for an invalid date.  An object
    is first converted to a primitive, which can throw. *)
Definition new_Date (host : Host) (v : JsValue) : Completion (option Z) :=
  match v with
  | JUndefined => Normal None
  | JNull => Normal (Some 0)
  | JBool b => Normal (Some (if b then 1 else 0))
  | JNum n => Normal (time_clip n)
  | JStr s => Normal (Date_parse host s)
  | JArr _ | JObj _ | JBuiltin _ =>
      cbind (to_string v) (fun s => Normal (Date_parse host s))
  end.

Definition month_short (m : Z) : string :=
  match m with
  | 1 => "Jan" | 2 => "Feb" | 3 => "Mar" | 4 => "Apr"
  | 5 => "May" | 6 => "Jun" | 7 => "Jul" | 8 => "Aug"
  | 9 => "Sep" | 10 => "Oct" | 11 => "Nov" | _ => "Dec"
  end.

Definition year_text (host : Host) (y : Z) : string :=
  if 1 <=? y then decimal y else era_year host y.

(** [toLocaleDateString('en-US', {month: 'short', day: 'numeric',
    year: 'numeric'})]: the calendar day of the instant in LOCAL time, as
    no [timeZone] option is given. *)
Definition toLocaleDateString (host : Host) (date : option Z) : string :=
  match date with
  | None => "Invalid Date"
  | Some t =>
      let '(y, m, d) := civil_from_days ((t + tz_offset host t) / msPerDay) in
      month_short m ++ " " ++ decimal d ++ ", " ++ year_text host y
  end.

End JsDate.

(** ** The document *)

Module Dom.
Import Text Js.

(** What an element shows: the markup last assigned to [innerHTML] or the
    text last assigned to [textContent]. *)
Inductive Content :=
| Markup (html : string)
| TextContent (text : string).

(** An element: its [id], its class list and its content.  The document is
    the sequence of its elements in document order; an element whose
    content the script rewrites is taken not to contain another element the
    script looks up. *)
Record Element := {
  el_id : option string;
  classList : list string;
  content : Content
}.

Definition Document := list Element.

(** A reference to an element: its position in the document. *)
Definition Ref := nat.

Definition has_id (id : string) (e : Element) : bool :=
  match el_id e with
  | Some i => String.eqb i id
  | None => false
  end.

Definition has_class (cls : string) (e : Element) : bool :=
  existsb (String.eqb cls) (classList e).

Fixpoint find_index (p : Element -> bool) (d : Document) : option Ref :=
  match d with
  | [] => None
  | e :: rest =>
      if p e then Some O
      else match find_index p rest with
           | Some i => Some (S i)
           | None => None
           end
  end.

(** [document.getElementById(id)]: the first element with that id, or
    [null]. *)
Definition getElementById (id : string) (d : Document) : option Ref :=
  find_index (has_id id) d.

(** [document.querySelector('.' + cls)]: the first element of that class,
    or [null]. *)
Definition querySelector_class (cls : string) (d : Document) : option Ref :=
  find_index (has_class cls) d.

Fixpoint update (r : Ref) (f : Element -> Element) (d : Document) : Document :=
  match d, r with
  | [], _ => []
  | e :: rest, O => f e :: rest
  | e :: rest, S r' => e :: update r' f rest
  end.

Definition set_content (c : Content) (e : Element) : Element :=
  {| el_id := el_id e; classList := classList e; content := c |}.

(** [classList.add(cls)] and [classList.remove(cls)]. *)
Definition class_add (cls : string) (e : Element) : Element :=
  {| el_id := el_id e;
     classList := if has_class cls e then classList e else classList e ++ [cls];
     content := content e |}.

Definition class_remove (cls : string) (e : Element) : Element :=
  {| el_id := el_id e;
     classList := filter (fun c => negb (String.eqb cls c)) (classList e);
     content := content e |}.

Definition content_at (r : Ref) (d : Document) : option Content :=
  option_map content (nth_error d r).

Definition content_of (id : string) (d : Document) : option Content :=
  match getElementById id d with
  | Some r => content_at r d
  | None => None
  end.

End Dom.

(** ** The world the controller runs in *)

Module Runtime.
Import Text Js JsDate Dom.

Inductive Method :=
| SetLoading (isLoading : bool)
| LoadAppliedJobs
| LoadNotifications
| UpdateKPIs.

(** What happens, in the order it happens. *)
Inductive Event :=
| Invoke (m : Method)
| Fetch (url : string)
| ConsoleError (message : string) (error : JsError)
| ConsoleWarn (message : string)
| AwaitAll                      (* [Promise.all] is built and awaited *)
| AllSettled (fulfilled : bool). (* the promise of [Promise.all] settles *)

Record World := {
  document : Document;
  location_href : string;
  history : list Event
}.

(** Synchronous code: it changes the world and returns or throws. *)
Definition M (A : Type) : Type := World -> Completion A * World.

Definition ret {A} (a : A) : M A := fun w => (Normal a, w).

Definition bind {A B} (m : M A) (k : A -> M B) : M B :=
  fun w =>
    match m w with
    | (Normal a, w') => k a w'
    | (Throw e, w') => (Throw e, w')
    end.

Definition lift {A} (c : Completion A) : M A := fun w => (c, w).

(** [try { body } catch (error) { handler }] *)
Definition try_catch {A} (body : M A) (handler : JsError -> M A) : M A :=
  fun w =>
    match body w with
    | (Normal a, w') => (Normal a, w')
    | (Throw e, w') => handler e w'
    end.

Definition emit (ev : Event) : M unit :=
  fun w =>
    (Normal tt,
     {| document := document w;
        location_href := location_href w;
        history := history w ++ [ev] |}).

Definition with_document (f : Document -> Document) : M unit :=
  fun w =>
    (Normal tt,
     {| document := f (document w);
        location_href := location_href w;
        history := history w |}).


(** [el.innerHTML = html] and [el.textContent = text] *)
Definition set_innerHTML (el : Ref) (html : string) : M unit :=
  with_document (update el (set_content (Markup html))).

Definition set_textContent (el : Ref) (text : string) : M unit :=
  with_document (update el (set_content (TextContent text))).

(** How a request ends: [fetch] rejects, or it resolves and
    [response.json()] rejects, or the body decodes to a value. *)
Inductive FetchOutcome :=
| NetworkError
| Undecodable
| Body (json : JsValue).

Definition Network := string -> FetchOutcome.

(** [await fetch(url)] followed by [await response.json()], once the
    outcome of the request is known. *)
Definition await_json (o : FetchOutcome) : Completion JsValue :=
  match o with
  | NetworkError => Throw FetchFailed
  | Undecodable => Throw JsonSyntaxError
  | Body v => Normal v
  end.

(** The promise an [async] method returns: settled already when the call
    returns, or waiting for a response, with the rest of the body to run
    when it arrives.  Nothing observable happens between the two [await]s
    of a body, so they resume as one step. *)
Inductive Promise :=
| Fulfilled
| Rejected (e : JsError)
| Pending (resume : M unit).

(** An [async] method never throws at the call: it returns a promise. *)
Definition Async : Type := World -> Promise * World.

(** A response arrives: the waiting body runs to its end and its promise
    settles. *)
Definition settle (p : Promise) (w : World) : Promise * World :=
  match p with
  | Pending resume =>
      match resume w with
      | (Normal _, w') => (Fulfilled, w')
      | (Throw e, w') => (Rejected e, w')
      end
  | _ => (p, w)
  end.

(** The method run until its promise has settled, with nothing else in
    between. *)
Definition run_to_end (f : Async) : M unit :=
  fun w =>
    let (p, w1) := f w in
    match settle p w1 with
    | (Rejected e, w2) => (Throw e, w2)
    | (_, w2) => (Normal tt, w2)
    end.

Fixpoint deliver (i : nat) (ps : list Promise) (w : World) : list Promise * World :=
  match ps, i with
  | [], _ => ([], w)
  | p :: rest, O => let (p', w') := settle p w in (p' :: rest, w')
  | p :: rest, S i' => let (rest', w') := deliver i' rest w in (p :: rest', w')
  end.

Fixpoint first_rejection (ps : list Promise) : option JsError :=
  match ps with
  | [] => None
  | Rejected e :: _ => Some e
  | _ :: rest => first_rejection rest
  end.

Definition is_fulfilled (p : Promise) : bool :=
  match p with
  | Fulfilled => true
  | _ => false
  end.

(** [await Promise.all(ps)].  The group rejects with the first rejection
    and fulfils when every member has; until then the responses arrive in
    the given order, each running its member's body.  The result is [None]
    if the order ends while the group still waits.  Also returned: the
    members as they are when the loader resumes, and the arrivals still to
    come. *)
Fixpoint await_all (arrivals : list nat) (ps : list Promise) (w : World)
  : option (Completion unit) * list Promise * list nat * World :=
  match first_rejection ps with
  | Some e => (Some (Throw e), ps, arrivals, w)
  | None =>
      if forallb is_fulfilled ps then (Some (Normal tt), ps, arrivals, w)
      else
        match arrivals with
        | [] => (None, ps, [], w)
        | i :: later =>
            let (ps', w') := deliver i ps w in await_all later ps' w'
        end
  end.

(** The responses that arrive after the loader has finished. *)
Fixpoint drain (arrivals : list nat) (ps : list Promise) (w : World) : World :=
  match arrivals with
  | [] => w
  | i :: later => let (ps', w') := deliver i ps w in drain later ps' w'
  end.

(** Every request gets its response: those named in [schedule] first, in
    that order, then the others in the order of the group. *)
Definition arrival_order (schedule : list nat) (members : nat) : list nat :=
  schedule ++ seq 0 members.

End Runtime.

(** ** The controller *)

Module JobseekerDashboard.
Import Text Js JsDate Dom Runtime.

Declare Scope js_scope.
Delimit Scope js_scope with js.
Notation "x <~ c ;; k" := (cbind c (fun x => k))
  (at level 61, c at next level, right associativity) : js_scope.
Notation "x <- m ;; k" := (bind m (fun x => k))
  (at level 61, m at next level, right associativity) : js_scope.
Notation "m ;;; k" := (bind m (fun _ => k))
  (at level 61, right associativity) : js_scope.
Local Open Scope js_scope.

(** What code outside this file can have put under the name
    [loadNotifications]: a function that throws when called, or one that
    returns something [Promise.all] takes as fulfilled or rejected, now or
    later.  Its own effects on the page are not part of this model. *)
Inductive Collaborator :=
| ThrowsAtCall (e : JsError)
| ReturnsFulfilled
| ReturnsRejected (e : JsError)
| FulfilsLater
| RejectsLater (e : JsError).

(** The controller object: the methods below, and [loadNotifications] when
    someone has added it. *)
Record Controller := {
  loadNotifications : option Collaborator
}.

(** The object as this file defines it. *)
Definition as_defined : Controller := {| loadNotifications := None |}.

Definition applications_url : string := "/api/jobseeker/applications".
Definition stats_url : string := "/api/jobseeker/stats".

(** *** getStatusBadge *)

Definition badge_warning : string :=
  "<span class=" ++ quoted "badge badge-warning" ++ ">Pending</span>".
Definition badge_success : string :=
  "<span class=" ++ quoted "badge badge-success" ++ ">Accepted</span>".
Definition badge_error : string :=
  "<span class=" ++ quoted "badge badge-error" ++ ">Rejected</span>".
Definition badge_info : string :=
  "<span class=" ++ quoted "badge badge-info" ++ ">Interview</span>".
Definition badge_neutral : string :=
  "<span class=" ++ quoted "badge badge-neutral" ++ ">Unknown</span>".

Definition badges : JsValue :=
  JObj [ ("pending", JStr badge_warning);
         ("accepted", JStr badge_success);
         ("rejected", JStr badge_error);
         ("interviewing", JStr badge_info) ].

Definition getStatusBadge (status : JsValue) : Completion JsValue :=
  statusLower <~ call_toLowerCase status ;;
  found <~ get_prop badges statusLower ;;
  Normal (or_else found (JStr badge_neutral)).

(** *** formatDate *)

Definition formatDate (host : Host) (dateString : JsValue) : Completion string :=
  date <~ new_Date host dateString ;;
  Normal (toLocaleDateString host date).

(** *** renderEmptyState *)

Definition empty_state_markup (icon title text : string) : string :=
  nl ++ "      <tr>" ++
  nl ++ "        <td colspan=" ++ quoted "5" ++ " class=" ++ quoted "empty-state-cell" ++ ">" ++
  nl ++ "          <div class=" ++ quoted "empty-state" ++ ">" ++
  nl ++ "            <div class=" ++ quoted "empty-state-icon" ++ ">" ++ icon ++ "</div>" ++
  nl ++ "            <div class=" ++ quoted "empty-state-title" ++ ">" ++ title ++ "</div>" ++
  nl ++ "            <div class=" ++ quoted "empty-state-text" ++ ">" ++ text ++ "</div>" ++
  nl ++ "          </div>" ++
  nl ++ "        </td>" ++
  nl ++ "      </tr>" ++
  nl ++ "    ".

Definition renderEmptyState (container : Ref) (icon title text : string) : M unit :=
  set_innerHTML container (empty_state_markup icon title text).

(** *** setLoading *)

Definition setLoading (isLoading : bool) : M unit :=
  emit (Invoke (SetLoading isLoading)) ;;;
  fun w =>
    match querySelector_class "dashboard-main" (document w) with
    | Some main =>
        if isLoading
        then with_document (update main (class_add "loading-fade")) w
        else with_document (update main (class_remove "loading-fade")) w
    | None => ret tt w
    end.

(** *** viewApplication *)


(** The [onclick] attribute of a row's button is JavaScript source with the
    record's id printed into it.  A click evaluates that source; the model
    does so when the printed argument is a decimal integer, which is how an
    integer id prints. *)
Definition view_handler (argument : string) : string :=
  "JobseekerDashboard.viewApplication(" ++ argument ++ ")".



(** *** loadAppliedJobs *)

Definition row_markup (job_title company badge date id : string) : string :=
  nl ++ "        <tr>" ++
  nl ++ "          <td><strong class=" ++ quoted "text-on-light" ++ ">" ++ job_title ++ "</strong></td>" ++
  nl ++ "          <td class=" ++ quoted "text-on-light-secondary" ++ ">" ++ company ++ "</td>" ++
  nl ++ "          <td>" ++ badge ++ "</td>" ++
  nl ++ "          <td class=" ++ quoted "text-on-light-secondary" ++ ">" ++ date ++ "</td>" ++
  nl ++ "          <td>" ++
  nl ++ "            <button class=" ++ quoted "btn btn-sm btn-secondary" ++
        " onclick=" ++ quoted (view_handler id) ++ ">" ++
  nl ++ "              View" ++
  nl ++ "            </button>" ++
  nl ++ "          </td>" ++
  nl ++ "        </tr>" ++
  nl ++ "      ".

(** The callback of [applications.map]: the substitutions of the template
    are evaluated and converted to strings from left to right. *)
Definition render_row (host : Host) (app : JsValue) : Completion string :=
  job_title <~ cbind (get_prop app "job_title") to_string ;;
  company <~ cbind (get_prop app "company") to_string ;;
  badge <~ cbind (cbind (get_prop app "status") getStatusBadge) to_string ;;
  date <~ cbind (get_prop app "applied_date") (formatDate host) ;;
  id <~ cbind (get_prop app "id") to_string ;;
  Normal (row_markup job_title company badge date id).

Definition error_row : string :=
  "<tr><td colspan=" ++ quoted "5" ++ " class=" ++ quoted "error-text" ++
  ">Failed to load applications.</td></tr>".

(** [!applications || applications.length === 0] *)
Definition nothing_to_show (applications : JsValue) : Completion bool :=
  if truthy applications
  then len <~ get_prop applications "length" ;; Normal (is_zero len)
  else Normal true.

(** The body of [loadAppliedJobs] from its [try] on, given how the request
    ends. *)
Definition loadAppliedJobs_resume (host : Host) (container : Ref)
    (response : FetchOutcome) : M unit :=
  try_catch
    (applications <- lift (await_json response) ;;
     empty <- lift (nothing_to_show applications) ;;
     if empty : bool
     then renderEmptyState container "📋" "No applications yet"
            "Start browsing jobs to apply!"
     else
       rows <- lift (call_map applications (render_row host)) ;;
       set_innerHTML container (join rows))
    (fun _ => set_innerHTML container error_row).

Definition loadAppliedJobs (host : Host) (net : Network) : Async :=
  fun w =>
    let w := snd (emit (Invoke LoadAppliedJobs) w) in
    match getElementById "appliedJobsTable" (document w) with
    | None => (Fulfilled, w)
    | Some container =>
        let w := snd (emit (Fetch applications_url) w) in
        (Pending (loadAppliedJobs_resume host container (net applications_url)), w)
    end.

(** *** updateKPIs *)

(** The keys of [kpiMap] in the order [Object.keys] lists them, each with
    the field of the statistics it shows. *)
Definition kpi_keys : list (string * string) :=
  [ ("kpiTotalApplications", "total");
    ("kpiPendingApplications", "pending");
    ("kpiAcceptedApplications", "accepted");
    ("kpiRejectedApplications", "rejected") ].

(** The object literal [kpiMap]: [stats.field || 0] under each id. *)
Fixpoint build_kpiMap (stats : JsValue) (keys : list (string * string))
  : Completion (list (string * JsValue)) :=
  match keys with
  | [] => Normal []
  | (id, field) :: rest =>
      v <~ get_prop stats field ;;
      others <~ build_kpiMap stats rest ;;
      Normal ((id, or_else v (JNum 0)) :: others)
  end.

(** [Object.keys(kpiMap).forEach(id => ...)] *)
Fixpoint write_kpis (kpiMap : list (string * JsValue)) : M unit :=
  match kpiMap with
  | [] => ret tt
  | (id, value) :: rest =>
      (fun w =>
         match getElementById id (document w) with
         | Some el => (text <- lift (to_string value) ;; set_textContent el text) w
         | None => ret tt w
         end) ;;;
      write_kpis rest
  end.

Definition updateKPIs_resume (response : FetchOutcome) : M unit :=
  try_catch
    (stats <- lift (await_json response) ;;
     kpiMap <- lift (build_kpiMap stats kpi_keys) ;;
     write_kpis kpiMap)
    (fun _ => emit (ConsoleWarn "Could not update KPIs")).

Definition updateKPIs (net : Network) : Async :=
  fun w =>
    let w := snd (emit (Invoke UpdateKPIs) w) in
    let w := snd (emit (Fetch stats_url) w) in
    (Pending (updateKPIs_resume (net stats_url)), w).

(** *** loadDashboardData *)

(** [this.loadNotifications()] *)
Definition call_loadNotifications (self : Controller) : M Promise :=
  match loadNotifications self with
  | None => lift (Throw (TypeError "this.loadNotifications is not a function"))
  | Some behaviour =>
      emit (Invoke LoadNotifications) ;;;
      match behaviour with
      | ThrowsAtCall e => lift (Throw e)
      | ReturnsFulfilled => ret Fulfilled
      | ReturnsRejected e => ret (Rejected e)
      | FulfilsLater => ret (Pending (ret tt))
      | RejectsLater e => ret (Pending (lift (Throw e)))
      end
  end.

(** One call of [loadDashboardData]: whether and how its promise settles
    ([None]: it never does), the world at that moment, and the world once
    the responses still on their way have been handled. *)
Record Run := {
  outcome : option (Completion unit);
  at_return : World;
  afterwards : World
}.

Definition sync_failed : string := "Dashboard data sync failed:".

(** The [catch] and [finally] blocks. *)
Definition catch_finally (result : Completion unit) : M unit :=
  match result with
  | Normal _ => ret tt
  | Throw error => emit (ConsoleError sync_failed error)
  end ;;;
  setLoading false.

(** The loader resumes with the result of its [try] block: [catch] when it
    is a throw, then [finally]; its promise settles; the responses still
    to come are handled afterwards. *)
Definition resume_loader (result : Completion unit) (started : list Promise)
    (arrivals : list nat) (w : World) : Run :=
  let (c, w) := catch_finally result w in
  {| outcome := Some c; at_return := w; afterwards := drain arrivals started w |}.

(** [await Promise.all(group)] and what follows it. *)
Definition await_group (group : list Promise) (arrivals : list nat) (w : World) : Run :=
  let w := snd (emit AwaitAll w) in
  match await_all arrivals group w with
  | (Some result, members, arrivals, w) =>
      let fulfilled := match result with
                       | Normal _ => true
                       | Throw _ => false
                       end in
      let w := snd (emit (AllSettled fulfilled) w) in
      resume_loader result members arrivals w
  | (None, _, _, w) => {| outcome := None; at_return := w; afterwards := w |}
  end.

(** The elements of the array are evaluated from left to right; a throw
    among them goes to [catch] with the calls already made still running. *)
Definition loadDashboardData (self : Controller) (host : Host) (net : Network)
    (schedule : list nat) (w0 : World) : Run :=
  let w := snd (setLoading true w0) in
  let (applied, w) := loadAppliedJobs host net w in
  match call_loadNotifications self w with
  | (Throw e, w) =>
      resume_loader (Throw e) [applied] (arrival_order schedule 1) w
  | (Normal notifications, w) =>
      let (kpis, w) := updateKPIs net w in
      await_group [applied; notifications; kpis] (arrival_order schedule 3) w
  end.

End JobseekerDashboard.

(** ** What the properties speak of *)

Module Observe.
Import Text Js JsDate Dom Runtime JobseekerDashboard.

(** The loading flag: the [loading-fade] class on the first
    [.dashboard-main] element. *)
Definition is_loading (w : World) : bool :=
  match find (has_class "dashboard-main") (document w) with
  | Some main => has_class "loading-fade" main
  | None => false
  end.

Definition is_warning (ev : Event) : bool :=
  match ev with
  | ConsoleWarn _ => true
  | _ => false
  end.

Definition is_setLoading (ev : Event) : bool :=
  match ev with
  | Invoke (SetLoading _) => true
  | _ => false
  end.



Definition is_string (v : JsValue) : bool :=
  match v with
  | JStr _ => true
  | _ => false
  end.

(** A request fails: the network does, or the decoding of the body. *)
Definition failed (o : FetchOutcome) : bool :=
  match o with
  | Body _ => false
  | _ => true
  end.

(** The four status keys and their badges, as section 4.3 of the
    specification lists them; every other key has the neutral badge. *)
Definition specified_badge (key : string) : string :=
  if String.eqb key "pending" then badge_warning
  else if String.eqb key "accepted" then badge_success
  else if String.eqb key "rejected" then badge_error
  else if String.eqb key "interviewing" then badge_info
  else badge_neutral.

(** A browser whose local time is UTC, and one five hours behind it. *)
Definition utc_browser : Host :=
  {| tz_offset := fun _ => 0;
     host_parse := fun _ => None;
     era_year := decimal |}.

Definition utc_minus_5_browser : Host :=
  {| tz_offset := fun _ => -18000000;
     host_parse := fun _ => None;
     era_year := decimal |}.




(** A value that converts to a string without throwing. *)
Definition printable (v : JsValue) : Prop := exists s, to_string v = Normal s.

(** A page with the three kinds of element the script looks for, two of
    the four counters missing; a page with none of them; and some
    responses. *)
Definition element (id : option string) (classes : list string) (html : string) : Element :=
  {| el_id := id; classList := classes; content := Markup html |}.

Definition sample_page : Document :=
  [ element None ["dashboard-main"] "";
    element (Some "appliedJobsTable") [] "";
    element (Some "kpiTotalApplications") [] "12";
    element (Some "kpiRejectedApplications") [] "3" ].

Definition world_of (d : Document) : World :=
  {| document := d; location_href := "/jobseeker/dashboard"; history := [] |}.

Definition sample_application : JsValue :=
  JObj [ ("id", JNum 7); ("job_title", JStr "Engineer"); ("company", JStr "Acme");
         ("status", JStr "Accepted"); ("applied_date", JStr "2024-01-05") ].


Definition application_without_status : JsValue :=
  JObj [ ("id", JNum 8); ("job_title", JStr "Analyst"); ("company", JStr "Initech");
         ("status", JNull); ("applied_date", JStr "2024-02-01") ].

Definition sample_stats : JsValue := JObj [ ("total", JNum 4); ("pending", JNum 1) ].

Definition answering (applications stats : FetchOutcome) : Network :=
  fun url => if String.eqb url applications_url then applications else stats.

(** From [w] to [w'] no class list has changed, and the events added are
    all among the [allowed] ones. *)
Definition undisturbed (allowed : Event -> bool) (w w' : World) : Prop :=
  map classList (document w') = map classList (document w) /\
  exists events,
    history w' = (history w ++ events)%list /\ forallb allowed events = true.

(** A promise whose waiting body, when it runs, leaves the world
    undisturbed in that sense. *)
Definition well_behaved (allowed : Event -> bool) (p : Promise) : Prop :=
  match p with
  | Pending resume => forall w, undisturbed allowed w (snd (resume w))
  | _ => True
  end.

Definition pending_at (ps : list Promise) (i : nat) : Prop :=
  match nth_error ps i with
  | Some (Pending _) => True
  | _ => False
  end.

Definition no_event (ev : Event) : bool := false.
Definition not_setLoading (ev : Event) : bool := negb (is_setLoading ev).

(** [loadNotifications] is there and returns: the group gets built. *)
Definition group_built (self : Controller) : bool :=
  match loadNotifications self with
  | None | Some (ThrowsAtCall _) => false
  | Some _ => true
  end.

End Observe.

(** ** Start-up *)

Module Startup.
Import Text Js JsDate Dom Runtime JobseekerDashboard.

(** The global [DashboardBase], when the page defines one: what its
    [init()] does to the page before the call ends, and how the call ends
    (a throw stands for an exception at the call, for a missing [init] and
    for a rejected promise alike: each rejects the promise of the
    controller's own [init]). *)
Record BaseDashboard := {
  base_effect : World -> World;
  base_result : Completion unit
}.

(** [init]: the base dashboard first, when there is one, then the data. *)
Definition init (base : option BaseDashboard) (self : Controller) (host : Host)
    (net : Network) (schedule : list nat) (w : World) : Run :=
  match base with
  | Some b =>
      let w1 := base_effect b w in
      match base_result b with
      | Normal _ => loadDashboardData self host net schedule w1
      | Throw e => {| outcome := Some (Throw e); at_return := w1; afterwards := w1 |}
      end
  | None => loadDashboardData self host net schedule w
  end.

(** [s.includes(part)] *)
Definition includes (part s : string) : bool :=
  match split_at part s with
  | Some _ => true
  | None => false
  end.

(** The listener for [DOMContentLoaded]: [init] is called on the pages
    whose path has the marker, and its promise is dropped.  [None]: nothing
    was called. *)
Definition on_DOMContentLoaded (pathname : string) (base : option BaseDashboard)
    (self : Controller) (host : Host) (net : Network) (schedule : list nat)
    (w : World) : option Run :=
  if includes "/jobseeker" pathname
  then Some (init base self host net schedule w)
  else None.

End Startup.

(** ** What the further properties speak of *)

Module Further.
Import Text Js JsDate Dom Runtime JobseekerDashboard Observe.

(** A calendar day as the locale prints it. *)
Definition date_text (host : Host) (day : Z * Z * Z) : string :=
  let '(y, m, d) := day in
  month_short m ++ " " ++ decimal d ++ ", " ++ year_text host y.

(** The calendar day before a day. *)
Definition previous_day (y m d : Z) : Z * Z * Z :=
  if 1 <? d then (y, m, d - 1)
  else if 1 <? m then (y, m - 1, days_in_month y (m - 1))
  else (y - 1, 12, 31).

(** What [getStatusBadge] returns for a lower-cased key: the two names a
    plain object inherits under a lower-case key give the inherited
    objects, every other key its badge. *)
Definition looked_up (key : string) : JsValue :=
  if String.eqb key "constructor" then JBuiltin ObjectConstructor
  else if String.eqb key "__proto__" then JBuiltin ObjectPrototype
  else JStr (specified_badge key).

(** [loadNotifications] is there and what it returns is or becomes
    fulfilled. *)
Definition fulfils (self : Controller) : bool :=
  match loadNotifications self with
  | Some ReturnsFulfilled | Some FulfilsLater => true
  | _ => false
  end.

(** [drain], with the members as they end. *)
Fixpoint drain_members (arrivals : list nat) (ps : list Promise) (w : World)
  : list Promise * World :=
  match arrivals with
  | [] => (ps, w)
  | i :: later => let (ps', w') := deliver i ps w in drain_members later ps' w'
  end.

(** From [w] to [w'] every lookup by id finds the same element and every
    element has the same content. *)
Definition same_contents (w w' : World) : Prop :=
  (forall id, getElementById id (document w') = getElementById id (document w)) /\
  (forall r, content_at r (document w') = content_at r (document w)).

(** The ids of the four counters. *)
Definition kpi_ids : list string := map fst kpi_keys.

(** From [w0] to [w] every lookup by id finds the same element. *)
Definition same_lookups (w0 w : World) : Prop :=
  forall id, getElementById id (document w) = getElementById id (document w0).

(** In [w] the four counters show what they show in [w']. *)
Definition counters_as_in (w' w : World) : Prop :=
  forall id, In id kpi_ids -> content_of id (document w) = content_of id (document w').

(** The world after one of the two methods has run alone, from its call to
    the end of its body. *)
Definition applied_alone (host : Host) (net : Network) (w0 : World) : World :=
  snd (run_to_end (loadAppliedJobs host net) w0).

Definition kpis_alone (net : Network) (w0 : World) : World :=
  snd (run_to_end (updateKPIs net) w0).

(** Where the promise of [loadAppliedJobs], called in a page like [w0],
    stands in the world [w]: still waiting, or fulfilled with the container
    showing what the method leaves when run alone. *)
Definition applied_member (host : Host) (net : Network) (w0 : World)
    (p : Promise) (w : World) : Prop :=
  match getElementById "appliedJobsTable" (document w0) with
  | Some c =>
      p = Pending (loadAppliedJobs_resume host c (net applications_url)) \/
      (p = Fulfilled /\
       content_of "appliedJobsTable" (document w)
       = content_of "appliedJobsTable" (document (applied_alone host net w0)))
  | None => p = Fulfilled
  end.

(** The same for [updateKPIs]: waiting with the counters as in [w0], or
    fulfilled with the counters as the method leaves them when run
    alone. *)
Definition kpis_member (net : Network) (w0 : World) (p : Promise) (w : World) : Prop :=
  (p = Pending (updateKPIs_resume (net stats_url)) /\ counters_as_in w0 w) \/
  (p = Fulfilled /\ counters_as_in (kpis_alone net w0) w).

(** Where what [loadNotifications] returned can stand. *)
Definition notifications_member (b : Collaborator) (p : Promise) : Prop :=
  match b with
  | ThrowsAtCall _ => False
  | ReturnsFulfilled => p = Fulfilled
  | ReturnsRejected e => p = Rejected e
  | FulfilsLater => p = Pending (ret tt) \/ p = Fulfilled
  | RejectsLater e => p = Pending (lift (Throw e)) \/ p = Rejected e
  end.

(** What holds of the group of three and the world at every moment of a
    call of the loader made in [w0]. *)
Definition group_invariant (host : Host) (net : Network) (b : Collaborator)
    (w0 : World) (ps : list Promise) (w : World) : Prop :=
  same_lookups w0 w /\
  exists pa pn pk,
    ps = [pa; pn; pk] /\
    applied_member host net w0 pa w /\
    notifications_member b pn /\
    kpis_member net w0 pk w.

(** The same when only [loadAppliedJobs] has been called. *)
Definition lone_invariant (host : Host) (net : Network) (w0 : World)
    (ps : list Promise) (w : World) : Prop :=
  same_lookups w0 w /\
  counters_as_in w0 w /\
  exists pa, ps = [pa] /\ applied_member host net w0 pa w.

(** The error the loader's [catch] receives, if any: from the call of
    [loadNotifications] or from the promise it returned. *)
Definition sync_error (self : Controller) : option JsError :=
  match loadNotifications self with
  | None => Some (TypeError "this.loadNotifications is not a function")
  | Some (ThrowsAtCall e) | Some (ReturnsRejected e) | Some (RejectsLater e) => Some e
  | Some ReturnsFulfilled | Some FulfilsLater => None
  end.

Definition is_error (ev : Event) : bool :=
  match ev with
  | ConsoleError _ _ => true
  | _ => false
  end.

End Further.

Import Text Js JsDate Dom Runtime JobseekerDashboard Observe.
Local Open Scope js_scope.

(** * Properties *)

(** ** Documents *)

Section DocumentFacts.

Variable p : Element -> bool.
Variable f : Element -> Element.

Lemma find_index_update (r : Ref) (d : Document) :
  (forall e, p (f e) = p e) ->
  find_index p (update r f d) = find_index p d.
Proof.
  intros Hp. revert r.
  induction d as [|e rest IH]; intros r; [now destruct r|].
  destruct r as [|r']; simpl.
  - now rewrite Hp.
  - now rewrite IH.
Qed.

Lemma find_index_found (d : Document) (r : Ref) :
  find_index p d = Some r ->
  exists e, nth_error d r = Some e /\ p e = true /\ find p d = Some e.
Proof.
  revert r. induction d as [|e rest IH]; intros r; simpl; [discriminate|].
  destruct (p e) eqn:He.
  - intros [= <-]. now exists e.
  - destruct (find_index p rest) as [i|] eqn:Hi; [|discriminate].
    intros [= <-]. destruct (IH i eq_refl) as (x & ? & ? & ?). now exists x.
Qed.

Lemma find_index_none (d : Document) :
  find_index p d = None -> find p d = None.
Proof.
  induction d as [|e rest IH]; simpl; [reflexivity|].
  destruct (p e); [discriminate|].
  destruct (find_index p rest); [discriminate|auto].
Qed.

Lemma nth_error_update (r : Ref) (d : Document) (e : Element) :
  nth_error d r = Some e -> nth_error (update r f d) r = Some (f e).
Proof.
  revert r. induction d as [|x rest IH]; intros [|r']; simpl; try discriminate.
  - now intros [= ->].
  - apply IH.
Qed.

Lemma nth_error_update_other (r r' : Ref) (d : Document) :
  r <> r' -> nth_error (update r f d) r' = nth_error d r'.
Proof.
  revert r r'. induction d as [|x rest IH]; intros [|r] [|r'] Hne; simpl;
    try reflexivity; try congruence.
  apply IH. congruence.
Qed.

Lemma map_classList_update (r : Ref) (d : Document) :
  (forall e, classList (f e) = classList e) ->
  map classList (update r f d) = map classList d.
Proof.
  intros Hf. revert r.
  induction d as [|x rest IH]; intros [|r]; simpl; try reflexivity.
  - now rewrite Hf.
  - now rewrite IH.
Qed.

End DocumentFacts.

Lemma getElementById_set_content (id : string) (r : Ref) (c : Content) (d : Document) :
  getElementById id (update r (set_content c) d) = getElementById id d.
Proof. apply find_index_update. reflexivity. Qed.

Lemma getElementById_distinct (a b : string) (d : Document) (r : Ref) :
  a <> b -> getElementById a d = Some r -> getElementById b d <> Some r.
Proof.
  intros Hab Ha Hb.
  destruct (find_index_found _ _ _ Ha) as (e & He & Pa & _).
  destruct (find_index_found _ _ _ Hb) as (e' & He' & Pb & _).
  assert (e' = e) by congruence. subst e'.
  unfold has_id in Pa, Pb. destruct (el_id e) as [i|]; [|discriminate].
  apply String.eqb_eq in Pa, Pb. congruence.
Qed.

Lemma content_of_written (id : string) (r : Ref) (c : Content) (d : Document) :
  getElementById id d = Some r ->
  content_of id (update r (set_content c) d) = Some c.
Proof.
  intros H. unfold content_of, content_at.
  rewrite getElementById_set_content, H.
  destruct (find_index_found _ _ _ H) as (e & He & _).
  now rewrite (nth_error_update _ _ _ _ He).
Qed.

(** ** Text *)



Lemma toLowerCase_uppercase_example : toLowerCase "PENDING" = "pending".
Proof. reflexivity. Qed.

Lemma lower_ascii_idempotent (c : ascii) : lower_ascii (lower_ascii c) = lower_ascii c.
Proof. destruct c as [[] [] [] [] [] [] [] []]; reflexivity. Qed.

Lemma toLowerCase_idempotent (s : string) : toLowerCase (toLowerCase s) = toLowerCase s.
Proof.
  induction s as [|c s IH]; simpl; [reflexivity|].
  now rewrite lower_ascii_idempotent, IH.
Qed.

(** A name with a capital letter is not the lower case of anything. *)
Lemma toLowerCase_never (s name : string) :
  toLowerCase name <> name -> String.eqb (toLowerCase s) name = false.
Proof.
  intros Hname. apply String.eqb_neq. intros E.
  apply Hname. rewrite <- E. apply toLowerCase_idempotent.
Qed.

Lemma no_inherited_method_is_lowercase (s : string) :
  existsb (String.eqb (toLowerCase s)) object_prototype_methods = false.
Proof.
  unfold object_prototype_methods. cbn [existsb].
  rewrite !toLowerCase_never by (vm_compute; discriminate).
  reflexivity.
Qed.

(** ** getStatusBadge *)

(** Where the mapping is as section 4.3 gives it: on every string whose
    lower case is not a name that the object literal inherits. *)
Lemma getStatusBadge_specified (s : string) :
  toLowerCase s <> "constructor" ->
  toLowerCase s <> "__proto__" ->
  getStatusBadge (JStr s) = Normal (JStr (specified_badge (toLowerCase s))).
Proof.
  intros Hc Hp.
  unfold getStatusBadge, specified_badge, badges. cbn [call_toLowerCase cbind].
  set (k := toLowerCase s) in *.
  unfold get_prop. cbn [own_property].
  rewrite !(String.eqb_sym _ k).
  destruct (String.eqb k "pending"); [reflexivity|].
  destruct (String.eqb k "accepted"); [reflexivity|].
  destruct (String.eqb k "rejected"); [reflexivity|].
  destruct (String.eqb k "interviewing"); [reflexivity|].
  unfold inherited_property.
  apply String.eqb_neq in Hc, Hp. rewrite Hc, Hp.
  unfold k. rewrite no_inherited_method_is_lowercase. reflexivity.
Qed.

(** On a string the call always returns, and what it returns has a text. *)
Lemma getStatusBadge_returns (s : string) :
  exists v text, getStatusBadge (JStr s) = Normal v /\ to_string v = Normal text.
Proof.
  destruct (String.eqb (toLowerCase s) "constructor") eqn:Hc.
  - apply String.eqb_eq in Hc. unfold getStatusBadge. cbn [call_toLowerCase cbind].
    rewrite Hc. eexists _, _. split; reflexivity.
  - destruct (String.eqb (toLowerCase s) "__proto__") eqn:Hp.
    + apply String.eqb_eq in Hp. unfold getStatusBadge. cbn [call_toLowerCase cbind].
      rewrite Hp. eexists _, _. split; reflexivity.
    + apply String.eqb_neq in Hc, Hp.
      rewrite (getStatusBadge_specified s Hc Hp). eexists _, _. split; reflexivity.
Qed.

(** C1, at the status ["constructor"]: the lookup in the object literal
    finds the constructor its prototype holds, a truthy value, so the call
    returns that function and the fallback of the [||] is not taken; the
    specified badge for this key is the neutral one.  So the mapping is not
    the specified one on every string.  The status ["PENDING"] does get
    the warning badge and the empty string the neutral one. *)
Theorem getStatusBadge_inherited_key :
  getStatusBadge (JStr "constructor") = Normal (JBuiltin ObjectConstructor) /\
  specified_badge (toLowerCase "constructor") = badge_neutral /\
  getStatusBadge (JStr "__proto__") = Normal (JBuiltin ObjectPrototype) /\
  ~ (forall s, getStatusBadge (JStr s)
               = Normal (JStr (specified_badge (toLowerCase s)))) /\
  getStatusBadge (JStr "PENDING") = Normal (JStr badge_warning) /\
  getStatusBadge (JStr "") = Normal (JStr badge_neutral).
Proof.
  repeat split; try reflexivity.
  intros H. specialize (H "constructor"). discriminate H.
Qed.

(** ** formatDate *)

Lemma iso_2024_01_05 : Date_parse utc_browser "2024-01-05" = Some 1704412800000.
Proof. reflexivity. Qed.

(** In a browser whose local time is at or ahead of UTC at that instant,
    the date is printed as written. *)
Lemma formatDate_at_or_east_of_utc (host : Host) :
  0 <= tz_offset host 1704412800000 < msPerDay ->
  formatDate host (JStr "2024-01-05") = Normal "Jan 5, 2024".
Proof.
  intros Hoff.
  unfold formatDate, new_Date. cbn [cbind].
  replace (Date_parse host "2024-01-05") with (Some 1704412800000) by reflexivity.
  unfold toLocaleDateString.
  replace ((1704412800000 + tz_offset host 1704412800000) / msPerDay) with 19727.
  - reflexivity.
  - unfold msPerDay in *.
    apply Z.div_unique with (r := tz_offset host 1704412800000); lia.
Qed.

(** C8, in a browser five hours behind UTC: the string is read as midnight
    UTC of 5 January and printed as the local day, which is still the
    4th.  So the result is not "Jan 5, 2024" in every browser; it is in
    one whose local time is UTC. *)
Theorem formatDate_west_of_utc :
  formatDate utc_minus_5_browser (JStr "2024-01-05") = Normal "Jan 4, 2024" /\
  ~ (forall host, formatDate host (JStr "2024-01-05") = Normal "Jan 5, 2024") /\
  formatDate utc_browser (JStr "2024-01-05") = Normal "Jan 5, 2024".
Proof.
  split; [reflexivity|]. split; [|reflexivity].
  intros H. specialize (H utc_minus_5_browser). discriminate H.
Qed.

(** ** Occurrences *)

Lemma strip_prefix_sound (p s rest : string) :
  strip_prefix p s = Some rest -> s = p ++ rest.
Proof.
  revert s. induction p as [|a p IH]; intros s; simpl.
  - now intros [= ->].
  - destruct s as [|b s]; [discriminate|].
    destruct (Ascii.eqb a b) eqn:E; [|discriminate].
    apply Ascii.eqb_eq in E. subst b. intros H. now rewrite (IH _ H).
Qed.

Lemma split_at_sound (part s before after : string) :
  split_at part s = Some (before, after) -> s = before ++ part ++ after.
Proof.
  revert before. induction s as [|c s IH]; intros before; simpl.
  - destruct (strip_prefix part "") as [r|] eqn:E; [|easy].
    intros [= <- <-]. exact (strip_prefix_sound _ _ _ E).
  - destruct (strip_prefix part (String c s)) as [r|] eqn:E.
    + intros [= <- <-]. exact (strip_prefix_sound _ _ _ E).
    + destruct (split_at part s) as [[b a]|]; [|easy].
      intros [= <- <-]. simpl. now rewrite (IH b eq_refl).
Qed.

Lemma split_at_contains (part s : string) :
  split_at part s <> None -> contains part s.
Proof.
  destruct (split_at part s) as [[b a]|] eqn:E; [|congruence].
  intros _. exists b, a. now apply split_at_sound.
Qed.





Ltac find_literal :=
  apply split_at_contains; vm_compute; discriminate.

(** ** The steps of the two fetching methods *)

Lemma set_innerHTML_result (c : Ref) (html : string) (w : World) :
  set_innerHTML c html w =
  (Normal tt,
   {| document := update c (set_content (Markup html)) (document w);
      location_href := location_href w;
      history := history w |}).
Proof. reflexivity. Qed.

(** With the container in the page, the call issues its request and
    waits. *)
Lemma loadAppliedJobs_starts (host : Host) (net : Network) (w : World) (c : Ref) :
  getElementById "appliedJobsTable" (document w) = Some c ->
  loadAppliedJobs host net w =
  (Pending (loadAppliedJobs_resume host c (net applications_url)),
   {| document := document w;
      location_href := location_href w;
      history := (history w ++ [Invoke LoadAppliedJobs]) ++ [Fetch applications_url] |}).
Proof.
  intros H. unfold loadAppliedJobs. cbn [emit snd document]. now rewrite H.
Qed.

(** Whenever the resumed body ends by assigning [html] to the container,
    the whole call ends normally with [html] in the container. *)
Lemma loadAppliedJobs_writes (host : Host) (net : Network) (w : World) (c : Ref)
    (html : string) :
  getElementById "appliedJobsTable" (document w) = Some c ->
  (forall w1, loadAppliedJobs_resume host c (net applications_url) w1
              = set_innerHTML c html w1) ->
  exists w',
    run_to_end (loadAppliedJobs host net) w = (Normal tt, w') /\
    content_of "appliedJobsTable" (document w') = Some (Markup html).
Proof.
  intros Hc Hresume. unfold run_to_end.
  rewrite (loadAppliedJobs_starts host net w c Hc).
  cbn [settle]. rewrite Hresume, set_innerHTML_result.
  eexists. split; [reflexivity|].
  cbn [document]. now apply content_of_written.
Qed.

Lemma resume_failed (host : Host) (c : Ref) (o : FetchOutcome) (w : World) :
  failed o = true ->
  loadAppliedJobs_resume host c o w = set_innerHTML c error_row w.
Proof. destruct o; [reflexivity|reflexivity|discriminate]. Qed.

Lemma map_elements_throws {A} (f : JsValue -> Completion A) (items : list JsValue)
    (x : JsValue) (e : JsError) :
  In x items -> f x = Throw e -> exists e', map_elements f items = Throw e'.
Proof.
  intros Hin Hx. induction items as [|y rest IH]; [contradiction|].
  simpl. destruct Hin as [->|Hin].
  - rewrite Hx. now exists e.
  - destruct (f y) as [b|e1]; simpl; [|now exists e1].
    destruct (IH Hin) as (e' & ->). now exists e'.
Qed.

Lemma resume_rows (host : Host) (c : Ref) (items : list JsValue) (w : World) :
  items <> [] ->
  loadAppliedJobs_resume host c (Body (JArr items)) w =
  match map_elements (render_row host) items with
  | Normal rows => set_innerHTML c (join rows) w
  | Throw _ => set_innerHTML c error_row w
  end.
Proof.
  intros Hne. destruct items as [|x rest]; [congruence|].
  unfold loadAppliedJobs_resume, try_catch, bind, lift.
  cbn [await_json nothing_to_show truthy get_prop String.eqb Ascii.eqb Bool.eqb
       cbind is_zero List.length call_map].
  replace (Z.of_nat (S (List.length rest)) =? 0) with false
    by (symmetry; apply Z.eqb_neq; lia).
  destruct (map_elements (render_row host) (x :: rest)); reflexivity.
Qed.

Lemma getStatusBadge_not_string (v : JsValue) :
  is_string v = false -> exists what, getStatusBadge v = Throw (TypeError what).
Proof.
  destruct v; simpl; try discriminate; intros _; eexists; reflexivity.
Qed.

Lemma render_row_bad_status (host : Host) (app status : JsValue) :
  get_prop app "status" = Normal status ->
  is_string status = false ->
  exists e, render_row host app = Throw e.
Proof.
  intros Hs Hns. unfold render_row.
  destruct (cbind (get_prop app "job_title") to_string) as [t|e]; [|now exists e].
  cbn [cbind].
  destruct (cbind (get_prop app "company") to_string) as [k|e]; [|now exists e].
  cbn [cbind]. rewrite Hs. cbn [cbind].
  destruct (getStatusBadge_not_string status Hns) as (what & ->).
  eexists. reflexivity.
Qed.

(** ** loadAppliedJobs *)

(** C4: with the container in the page and the request for the
    applications failing (the network, or the decoding of the body), the
    call ends normally and the container holds the one error row, whose
    cell spans five columns. *)
Theorem loadAppliedJobs_failed_fetch (host : Host) (net : Network) (w : World) (c : Ref) :
  getElementById "appliedJobsTable" (document w) = Some c ->
  failed (net applications_url) = true ->
  exists w',
    run_to_end (loadAppliedJobs host net) w = (Normal tt, w') /\
    content_of "appliedJobsTable" (document w') = Some (Markup error_row) /\
    contains ("<tr><td colspan=" ++ quoted "5") error_row.
Proof.
  intros Hc Hfail.
  destruct (loadAppliedJobs_writes host net w c error_row Hc) as (w' & Hrun & Hcontent).
  - intros w1. now apply resume_failed.
  - exists w'. repeat split; [exact Hrun|exact Hcontent|find_literal].
Qed.

Lemma loadAppliedJobs_failed_fetch_witness :
  getElementById "appliedJobsTable" sample_page = Some 1%nat /\
  failed (answering Undecodable (Body sample_stats) applications_url) = true /\
  exists w',
    run_to_end (loadAppliedJobs utc_browser (answering Undecodable (Body sample_stats)))
      (world_of sample_page) = (Normal tt, w') /\
    content_of "appliedJobsTable" (document w') = Some (Markup error_row) /\
    contains ("<tr><td colspan=" ++ quoted "5") error_row.
Proof.
  split; [reflexivity|]. split; [reflexivity|].
  apply (loadAppliedJobs_failed_fetch utc_browser
           (answering Undecodable (Body sample_stats)) (world_of sample_page) 1%nat);
    reflexivity.
Defined.

(** C6: with the container in the page and the request answered by [null]
    or by an empty array, the container holds exactly the empty-state
    markup for the clipboard icon, the title "No applications yet" and the
    text "Start browsing jobs to apply!", in a cell spanning five
    columns. *)
Theorem loadAppliedJobs_nothing_to_show (host : Host) (net : Network) (w : World)
    (c : Ref) (applications : JsValue) :
  getElementById "appliedJobsTable" (document w) = Some c ->
  net applications_url = Body applications ->
  applications = JNull \/ applications = JArr [] ->
  let shown :=
    empty_state_markup "📋" "No applications yet" "Start browsing jobs to apply!" in
  exists w',
    run_to_end (loadAppliedJobs host net) w = (Normal tt, w') /\
    content_of "appliedJobsTable" (document w') = Some (Markup shown) /\
    contains ("<td colspan=" ++ quoted "5") shown /\
    contains ("<div class=" ++ quoted "empty-state-icon" ++ ">📋</div>") shown /\
    contains ("<div class=" ++ quoted "empty-state-title" ++ ">No applications yet</div>") shown /\
    contains ("<div class=" ++ quoted "empty-state-text" ++ ">Start browsing jobs to apply!</div>") shown.
Proof.
  intros Hc Hnet Hempty shown.
  destruct (loadAppliedJobs_writes host net w c shown Hc) as (w' & Hrun & Hcontent).
  - intros w1. rewrite Hnet. destruct Hempty as [-> | ->]; reflexivity.
  - exists w'. split; [exact Hrun|]. split; [exact Hcontent|].
    repeat split; find_literal.
Qed.

Lemma loadAppliedJobs_nothing_to_show_witness :
  let net := answering (Body (JArr [])) (Body sample_stats) in
  getElementById "appliedJobsTable" sample_page = Some 1%nat /\
  net applications_url = Body (JArr []) /\
  exists w',
    run_to_end (loadAppliedJobs utc_browser net) (world_of sample_page) = (Normal tt, w') /\
    content_of "appliedJobsTable" (document w') =
      Some (Markup (empty_state_markup "📋" "No applications yet"
                      "Start browsing jobs to apply!")).
Proof.
  intros net. split; [reflexivity|]. split; [reflexivity|].
  destruct (loadAppliedJobs_nothing_to_show utc_browser net (world_of sample_page)
              1%nat (JArr []) eq_refl eq_refl (or_intror eq_refl))
    as (w' & Hrun & Hcontent & _).
  exists w'. split; assumption.
Defined.

(** C10: on a status that is not a string, [getStatusBadge] throws a
    TypeError; and when the request is answered by an array one of whose
    records carries such a status, the container ends with the error row,
    not with the table. *)
Theorem non_string_status_goes_to_error_row :
  (forall status, is_string status = false ->
     exists what, getStatusBadge status = Throw (TypeError what)) /\
  (forall (host : Host) (net : Network) (w : World) (c : Ref)
          (items : list JsValue) (app status : JsValue),
     getElementById "appliedJobsTable" (document w) = Some c ->
     net applications_url = Body (JArr items) ->
     In app items ->
     get_prop app "status" = Normal status ->
     is_string status = false ->
     exists w',
       run_to_end (loadAppliedJobs host net) w = (Normal tt, w') /\
       content_of "appliedJobsTable" (document w') = Some (Markup error_row)).
Proof.
  split; [exact getStatusBadge_not_string|].
  intros host net w c items app status Hc Hnet Hin Hstatus Hns.
  apply (loadAppliedJobs_writes host net w c error_row Hc).
  intros w1. rewrite Hnet, resume_rows.
  - destruct (render_row_bad_status host app status Hstatus Hns) as (e & He).
    destruct (map_elements_throws _ items app e Hin He) as (e' & ->). reflexivity.
  - intros ->. contradiction.
Qed.

Lemma non_string_status_goes_to_error_row_witness :
  let net := answering (Body (JArr [sample_application; application_without_status]))
               (Body sample_stats) in
  (is_string JNull = false /\ is_string JUndefined = false /\ is_string (JNum 3) = false) /\
  (exists what, getStatusBadge JNull = Throw (TypeError what)) /\
  (exists what, getStatusBadge JUndefined = Throw (TypeError what)) /\
  (exists what, getStatusBadge (JNum 3) = Throw (TypeError what)) /\
  exists w',
    run_to_end (loadAppliedJobs utc_browser net) (world_of sample_page) = (Normal tt, w') /\
    content_of "appliedJobsTable" (document w') = Some (Markup error_row).
Proof.
  intros net.
  destruct non_string_status_goes_to_error_row as [Hthrows Hrow].
  split; [repeat split|].
  split; [apply Hthrows; reflexivity|].
  split; [apply Hthrows; reflexivity|].
  split; [apply Hthrows; reflexivity|].
  apply (Hrow utc_browser net (world_of sample_page) 1%nat
           [sample_application; application_without_status]
           application_without_status JNull);
    try reflexivity.
  right. left. reflexivity.
Defined.







(** ** updateKPIs *)

(** C3: when the request for the statistics fails (the network, or the
    decoding of the body), the call ends normally, having only logged a
    warning: the document is as it was, so each of the four counters shows
    what it showed. *)
Theorem updateKPIs_failed_fetch (net : Network) (w : World) :
  failed (net stats_url) = true ->
  exists w',
    run_to_end (updateKPIs net) w = (Normal tt, w') /\
    document w' = document w /\
    Forall (fun k => content_of (fst k) (document w') = content_of (fst k) (document w))
      kpi_keys /\
    history w' =
      (history w ++ [Invoke UpdateKPIs; Fetch stats_url;
                     ConsoleWarn "Could not update KPIs"])%list.
Proof.
  intros Hfail. unfold run_to_end, updateKPIs. cbn [settle].
  assert (Hresume : forall w1, updateKPIs_resume (net stats_url) w1
                               = emit (ConsoleWarn "Could not update KPIs") w1).
  { intros w1. destruct (net stats_url); [reflexivity|reflexivity|discriminate]. }
  rewrite Hresume. cbn [emit snd document history].
  eexists. split; [reflexivity|]. cbn [document history].
  split; [reflexivity|]. split.
  - apply Forall_forall. reflexivity.
  - now rewrite <- !app_assoc.
Qed.

Lemma updateKPIs_failed_fetch_witness :
  let net := answering (Body (JArr [])) NetworkError in
  failed (net stats_url) = true /\
  exists w',
    run_to_end (updateKPIs net) (world_of sample_page) = (Normal tt, w') /\
    document w' = sample_page /\
    content_of "kpiTotalApplications" (document w') = Some (Markup "12").
Proof.
  intros net. split; [reflexivity|].
  destruct (updateKPIs_failed_fetch net (world_of sample_page) eq_refl)
    as (w' & Hrun & Hdoc & _).
  exists w'. split; [exact Hrun|]. split; [exact Hdoc|].
  rewrite Hdoc. reflexivity.
Defined.

Lemma content_of_other (a b : string) (r : Ref) (c : Content) (d : Document) :
  a <> b -> getElementById a d = Some r ->
  content_of b (update r (set_content c) d) = content_of b d.
Proof.
  intros Hab Ha. unfold content_of. rewrite getElementById_set_content.
  destruct (getElementById b d) as [r'|] eqn:Hb; [|reflexivity].
  unfold content_at. rewrite nth_error_update_other; [reflexivity|].
  intros ->. exact (getElementById_distinct a b d r' Hab Ha Hb).
Qed.




(** ** Missing elements *)



(** ** Worlds left undisturbed *)

Section Undisturbed.

Variable allowed : Event -> bool.

Lemma undisturbed_refl (w : World) : undisturbed allowed w w.
Proof. split; [reflexivity|]. exists []. split; [now rewrite app_nil_r|reflexivity]. Qed.

Lemma undisturbed_trans (w1 w2 w3 : World) :
  undisturbed allowed w1 w2 -> undisturbed allowed w2 w3 -> undisturbed allowed w1 w3.
Proof.
  intros (Hc1 & e1 & Hh1 & Ha1) (Hc2 & e2 & Hh2 & Ha2). split; [congruence|].
  exists (e1 ++ e2)%list. split.
  - now rewrite Hh2, Hh1, app_assoc.
  - now rewrite forallb_app, Ha1, Ha2.
Qed.

Lemma undisturbed_emit (ev : Event) (w : World) :
  allowed ev = true -> undisturbed allowed w (snd (emit ev w)).
Proof.
  intros Hev. split; [reflexivity|]. exists [ev]. split; [reflexivity|].
  simpl. now rewrite Hev.
Qed.

Lemma undisturbed_content (r : Ref) (c : Content) (w : World) :
  undisturbed allowed w (snd (with_document (update r (set_content c)) w)).
Proof.
  split.
  - simpl. now apply map_classList_update.
  - exists []. split; [simpl; now rewrite app_nil_r|reflexivity].
Qed.

Lemma settle_undisturbed (p : Promise) (w : World) :
  well_behaved allowed p ->
  undisturbed allowed w (snd (settle p w)) /\
  well_behaved allowed (fst (settle p w)).
Proof.
  destruct p as [| e | resume]; simpl; intros Hp;
    try (split; [apply undisturbed_refl|exact I]).
  specialize (Hp w). destruct (resume w) as [[[]|e] w']; simpl in *; now split.
Qed.

Lemma deliver_undisturbed (i : nat) (ps : list Promise) (w : World) :
  Forall (well_behaved allowed) ps ->
  undisturbed allowed w (snd (deliver i ps w)) /\
  Forall (well_behaved allowed) (fst (deliver i ps w)).
Proof.
  intros Hps. revert i. induction Hps as [|p rest Hp Hrest IH]; intros i.
  - destruct i; simpl; (split; [apply undisturbed_refl|constructor]).
  - destruct i as [|i]; simpl.
    + destruct (settle_undisturbed p w Hp) as [Hw Hp'].
      destruct (settle p w) as [p' w']; simpl in *. split; [exact Hw|now constructor].
    + destruct (IH i) as [Hw Hrest'].
      destruct (deliver i rest w) as [rest' w']; simpl in *.
      split; [exact Hw|now constructor].
Qed.

Lemma drain_undisturbed (arrivals : list nat) (ps : list Promise) (w : World) :
  Forall (well_behaved allowed) ps ->
  undisturbed allowed w (drain arrivals ps w).
Proof.
  revert ps w. induction arrivals as [|i later IH]; intros ps w Hps; simpl.
  - apply undisturbed_refl.
  - destruct (deliver_undisturbed i ps w Hps) as [Hw Hps'].
    destruct (deliver i ps w) as [ps' w']; simpl in *.
    exact (undisturbed_trans _ _ _ Hw (IH ps' w' Hps')).
Qed.

End Undisturbed.

Lemma undisturbed_weaken (allowed allowed' : Event -> bool) (w w' : World) :
  (forall ev, allowed ev = true -> allowed' ev = true) ->
  undisturbed allowed w w' -> undisturbed allowed' w w'.
Proof.
  intros Hle (Hc & evs & Hh & Ha). split; [exact Hc|]. exists evs. split; [exact Hh|].
  rewrite forallb_forall in *. auto.
Qed.

Lemma well_behaved_weaken (allowed allowed' : Event -> bool) (p : Promise) :
  (forall ev, allowed ev = true -> allowed' ev = true) ->
  well_behaved allowed p -> well_behaved allowed' p.
Proof.
  intros Hle. destruct p; simpl; auto.
  intros H w. exact (undisturbed_weaken _ _ _ _ Hle (H w)).
Qed.

Lemma no_events_at_all (events : list Event) :
  forallb no_event events = true -> events = [].
Proof. destruct events; [reflexivity|discriminate]. Qed.

Lemma find_by_class (cls : string) (d d' : Document) :
  map classList d = map classList d' ->
  option_map classList (find (has_class cls) d)
  = option_map classList (find (has_class cls) d').
Proof.
  revert d'. induction d as [|e rest IH]; intros [|e' rest']; simpl;
    try discriminate; [reflexivity|].
  intros [= He Hrest]. unfold has_class at 1 3. rewrite He.
  destruct (existsb (String.eqb cls) (classList e')); simpl; [now rewrite He|auto].
Qed.

(** The loading flag depends on the class lists only. *)
Lemma is_loading_undisturbed (allowed : Event -> bool) (w w' : World) :
  undisturbed allowed w w' -> is_loading w' = is_loading w.
Proof.
  intros (Hc & _). unfold is_loading.
  pose proof (find_by_class "dashboard-main" _ _ Hc) as H.
  destruct (find (has_class "dashboard-main") (document w')) as [m'|];
    destruct (find (has_class "dashboard-main") (document w)) as [m|];
    simpl in H; try discriminate; [|reflexivity].
  injection H as H. unfold has_class. now rewrite H.
Qed.

(** ** The group *)

Lemma settle_not_pending (p : Promise) (w : World) :
  match fst (settle p w) with
  | Pending _ => False
  | _ => True
  end.
Proof.
  destruct p as [| e | resume]; simpl; try exact I.
  destruct (resume w) as [[[]|e] w']; exact I.
Qed.

(** A response settles its member and leaves the others as they were. *)
Lemma deliver_pending (i j : nat) (ps : list Promise) (w : World) :
  pending_at (fst (deliver i ps w)) j -> j <> i /\ pending_at ps j.
Proof.
  revert i j. induction ps as [|p rest IH]; intros i j.
  - destruct i, j; simpl; contradiction.
  - destruct i as [|i]; simpl.
    + pose proof (settle_not_pending p w) as Hp.
      destruct (settle p w) as [p' w']; simpl in *.
      destruct j as [|j]; unfold pending_at; simpl.
      * destruct p'; contradiction || tauto.
      * intros H. split; [discriminate|exact H].
    + specialize (IH i). destruct (deliver i rest w) as [rest' w']; simpl in *.
      destruct j as [|j]; unfold pending_at in *; simpl.
      * intros H. split; [discriminate|exact H].
      * intros H. destruct (IH j H) as [Hne Hp]. split; [congruence|exact Hp].
Qed.

Lemma all_settled_and_none_rejected (ps : list Promise) :
  (forall j, ~ pending_at ps j) ->
  first_rejection ps = None ->
  forallb is_fulfilled ps = true.
Proof.
  induction ps as [|p rest IH]; intros Hnone Hrej; [reflexivity|].
  destruct p as [| e | resume]; simpl in *.
  - apply IH; [|exact Hrej]. intros j Hj. exact (Hnone (S j) Hj).
  - discriminate.
  - exfalso. exact (Hnone O I).
Qed.

(** When every member still waiting is among the arrivals, the group
    settles; and if the members are well behaved, so are they afterwards
    and the world is undisturbed. *)
Lemma await_all_settles (allowed : Event -> bool) (arrivals : list nat) :
  forall (ps : list Promise) (w : World),
    (forall j, pending_at ps j -> In j arrivals) ->
    Forall (well_behaved allowed) ps ->
    exists result ps' rest w',
      await_all arrivals ps w = (Some result, ps', rest, w') /\
      undisturbed allowed w w' /\
      Forall (well_behaved allowed) ps'.
Proof.
  induction arrivals as [|i later IH]; intros ps w Hcover Hps; simpl.
  - destruct (first_rejection ps) as [e|] eqn:Hrej.
    + exists (Throw e), ps, [], w. split; [reflexivity|split; [apply undisturbed_refl|exact Hps]].
    + rewrite all_settled_and_none_rejected; [|intros j Hj; exact (Hcover j Hj)|exact Hrej].
      exists (Normal tt), ps, [], w. split; [reflexivity|split; [apply undisturbed_refl|exact Hps]].
  - destruct (first_rejection ps) as [e|] eqn:Hrej.
    + exists (Throw e), ps, (i :: later), w. split; [reflexivity|split; [apply undisturbed_refl|exact Hps]].
    + destruct (forallb is_fulfilled ps) eqn:Hall.
      * exists (Normal tt), ps, (i :: later), w. split; [reflexivity|split; [apply undisturbed_refl|exact Hps]].
      * destruct (deliver_undisturbed allowed i ps w Hps) as [Hw Hps'].
        pose proof (fun j => deliver_pending i j ps w) as Hpend.
        destruct (deliver i ps w) as [ps' w']; simpl in *.
        destruct (IH ps' w') as (result & ps'' & rest & w'' & Hrun & Hw' & Hps'').
        -- intros j Hj. destruct (Hpend j Hj) as [Hne Hj'].
           destruct (Hcover j Hj') as [Heq|Hin]; [congruence|exact Hin].
        -- exact Hps'.
        -- exists result, ps'', rest, w''. split; [exact Hrun|].
           split; [exact (undisturbed_trans _ _ _ _ Hw Hw')|exact Hps''].
Qed.

Lemma arrival_order_covers (schedule : list nat) (ps : list Promise) (j : nat) :
  pending_at ps j -> In j (arrival_order schedule (List.length ps)).
Proof.
  unfold pending_at, arrival_order. intros Hj.
  apply in_or_app. right. apply in_seq. split; [lia|]. simpl.
  apply nth_error_Some. destruct (nth_error ps j); [discriminate|contradiction].
Qed.

(** ** The members *)

Lemma loadAppliedJobs_resume_writes (host : Host) (c : Ref) (o : FetchOutcome) (w : World) :
  exists html, loadAppliedJobs_resume host c o w = set_innerHTML c html w.
Proof.
  unfold loadAppliedJobs_resume, try_catch, bind, lift.
  destruct (await_json o) as [applications|e]; [|eexists; reflexivity].
  destruct (nothing_to_show applications) as [[|]|e]; try (eexists; reflexivity).
  destruct (call_map applications (render_row host)) as [rows|e]; eexists; reflexivity.
Qed.

Lemma loadAppliedJobs_well_behaved (host : Host) (net : Network) (w : World) :
  exists p w',
    loadAppliedJobs host net w = (p, w') /\
    well_behaved no_event p /\
    document w' = document w /\
    history w' =
      (history w ++ Invoke LoadAppliedJobs ::
         match getElementById "appliedJobsTable" (document w) with
         | Some _ => [Fetch applications_url]
         | None => []
         end)%list.
Proof.
  unfold loadAppliedJobs. cbn [emit snd document].
  destruct (getElementById "appliedJobsTable" (document w)) as [c|].
  - eexists _, _. split; [reflexivity|]. split; [|split].
    + intros w1.
      destruct (loadAppliedJobs_resume_writes host c (net applications_url) w1) as (html & ->).
      apply undisturbed_content.
    + reflexivity.
    + cbn [history]. now rewrite <- app_assoc.
  - eexists _, _. split; [reflexivity|]. split; [exact I|]. split; reflexivity.
Qed.

Lemma write_kpis_undisturbed (kpiMap : list (string * JsValue)) (w : World) :
  undisturbed no_event w (snd (write_kpis kpiMap w)).
Proof.
  revert w. induction kpiMap as [|[id v] rest IH]; intros w; [apply undisturbed_refl|].
  cbn [write_kpis]. unfold bind at 1.
  destruct (getElementById id (document w)) as [el|].
  - unfold bind at 1, lift. destruct (to_string v) as [text|e].
    + unfold set_textContent.
      pose proof (undisturbed_content no_event el (TextContent text) w) as H1.
      destruct (with_document (update el (set_content (TextContent text))) w)
        as [[[]|e] w1] eqn:E; simpl in *.
      * exact (undisturbed_trans _ _ _ _ H1 (IH w1)).
      * exact H1.
    + apply undisturbed_refl.
  - unfold ret at 1. apply IH.
Qed.

Lemma updateKPIs_resume_well_behaved (o : FetchOutcome) :
  well_behaved is_warning (Pending (updateKPIs_resume o)).
Proof.
  intros w. unfold updateKPIs_resume, try_catch, bind at 1, lift.
  destruct (await_json o) as [stats|e]; [|now apply undisturbed_emit].
  unfold bind at 1. destruct (build_kpiMap stats kpi_keys) as [kpiMap|e];
    [|now apply undisturbed_emit].
  pose proof (write_kpis_undisturbed kpiMap w) as H.
  apply (undisturbed_weaken no_event is_warning) in H; [|discriminate].
  destruct (write_kpis kpiMap w) as [[[]|e] w1]; simpl in *; [exact H|].
  exact (undisturbed_trans _ _ _ _ H
           (undisturbed_emit is_warning (ConsoleWarn "Could not update KPIs") w1 eq_refl)).
Qed.

Lemma has_class_kept (keep gone : string) (e : Element) :
  keep <> gone ->
  has_class keep (class_remove gone e) = has_class keep e /\
  has_class keep (class_add gone e) = has_class keep e.
Proof.
  intros Hne. unfold class_remove, class_add, has_class. cbn [classList]. split.
  - induction (classList e) as [|c l IH]; [reflexivity|]. simpl.
    destruct (String.eqb gone c) eqn:E; simpl; [|now rewrite IH].
    apply String.eqb_eq in E. subst c.
    rewrite (proj2 (String.eqb_neq keep gone) Hne). exact IH.
  - destruct (existsb (String.eqb gone) (classList e)); [reflexivity|].
    rewrite existsb_app. simpl.
    rewrite (proj2 (String.eqb_neq keep gone) Hne). now rewrite !orb_false_r.
Qed.

Lemma has_class_removed (cls : string) (e : Element) :
  has_class cls (class_remove cls e) = false.
Proof.
  unfold has_class, class_remove. cbn [classList].
  induction (classList e) as [|c l IH]; [reflexivity|]. simpl.
  destruct (String.eqb cls c) eqn:E; simpl; [exact IH|now rewrite E].
Qed.

Lemma find_update_found (p : Element -> bool) (f : Element -> Element)
    (d : Document) (r : Ref) :
  (forall e, p (f e) = p e) ->
  find_index p d = Some r ->
  find p (update r f d) = option_map f (find p d).
Proof.
  intros Hp. revert r. induction d as [|e rest IH]; intros r; simpl; [discriminate|].
  destruct (p e) eqn:He.
  - intros [= <-]. simpl. now rewrite Hp, He.
  - destruct (find_index p rest) as [i|] eqn:Hi; [|discriminate].
    intros [= <-]. simpl. rewrite He. now apply IH.
Qed.

(** [setLoading]: one event; ids stay; after [setLoading(false)] the flag is
    down. *)
Lemma setLoading_spec (isLoading : bool) (w : World) :
  exists w',
    setLoading isLoading w = (Normal tt, w') /\
    history w' = (history w ++ [Invoke (SetLoading isLoading)])%list /\
    (forall id, getElementById id (document w') = getElementById id (document w)) /\
    (isLoading = false -> is_loading w' = false).
Proof.
  unfold setLoading, bind, emit. cbn [document].
  destruct (querySelector_class "dashboard-main" (document w)) as [main|] eqn:Hmain.
  - destruct isLoading; (eexists; split; [reflexivity|]); cbn [history document];
      (split; [reflexivity|]); (split; [intros id; now apply find_index_update|]).
    + discriminate.
    + intros _. unfold is_loading. cbn [document].
      rewrite (find_update_found _ _ _ _
                 (fun e => proj1 (has_class_kept "dashboard-main" "loading-fade" e
                                    ltac:(discriminate))) Hmain).
      destruct (find (has_class "dashboard-main") (document w)); [|reflexivity].
      apply has_class_removed.
  - eexists. split; [reflexivity|]. cbn [history document].
    split; [reflexivity|]. split; [reflexivity|].
    intros _. unfold is_loading. cbn [document].
    now rewrite (find_index_none _ _ Hmain).
Qed.

(** ** loadDashboardData *)

Lemma catch_finally_spec (result : Completion unit) (w : World) :
  exists w',
    catch_finally result w = (Normal tt, w') /\
    history w' =
      (history w ++
       match result with
       | Throw e => [ConsoleError sync_failed e]
       | Normal _ => []
       end ++ [Invoke (SetLoading false)])%list /\
    is_loading w' = false.
Proof.
  unfold catch_finally, bind. destruct result as [[]|e].
  - unfold ret.
    destruct (setLoading_spec false w) as (w' & Hrun & Hh & _ & Hflag).
    exists w'. split; [exact Hrun|]. split; [exact Hh|now apply Hflag].
  - unfold emit at 1.
    match goal with |- context [setLoading false ?w1] =>
      destruct (setLoading_spec false w1) as (w' & Hrun & Hh & _ & Hflag) end.
    exists w'. split; [exact Hrun|]. cbn [history] in Hh.
    split; [now rewrite Hh, <- app_assoc|now apply Hflag].
Qed.

Lemma resume_loader_spec (allowed : Event -> bool) (result : Completion unit)
    (started : list Promise) (arrivals : list nat) (w : World) :
  Forall (well_behaved allowed) started ->
  let r := resume_loader result started arrivals w in
  outcome r = Some (Normal tt) /\
  history (at_return r) =
    (history w ++
     match result with
     | Throw e => [ConsoleError sync_failed e]
     | Normal _ => []
     end ++ [Invoke (SetLoading false)])%list /\
  is_loading (at_return r) = false /\
  undisturbed allowed (at_return r) (afterwards r).
Proof.
  intros Hstarted. unfold resume_loader.
  destruct (catch_finally_spec result w) as (w' & -> & Hh & Hflag).
  cbn [outcome at_return afterwards]. split; [reflexivity|].
  split; [exact Hh|]. split; [exact Hflag|].
  now apply drain_undisturbed.
Qed.

Lemma await_group_spec (group : list Promise) (arrivals : list nat) (w : World) :
  Forall (well_behaved is_warning) group ->
  (forall j, pending_at group j -> In j arrivals) ->
  let r := await_group group arrivals w in
  outcome r = Some (Normal tt) /\
  (exists during,
      history (at_return r) = (history w ++ during ++ [Invoke (SetLoading false)])%list /\
      forallb not_setLoading during = true /\
      In AwaitAll during /\ exists ok, In (AllSettled ok) during) /\
  is_loading (at_return r) = false /\
  undisturbed is_warning (at_return r) (afterwards r).
Proof.
  intros Hgroup Hcover. unfold await_group.
  destruct (await_all_settles is_warning arrivals group (snd (emit AwaitAll w))
              Hcover Hgroup)
    as (result & members & rest & w1 & -> & (_ & evs & Hh1 & Hevs) & Hmembers).
  set (ok := match result with Normal _ => true | Throw _ => false end).
  destruct (resume_loader_spec is_warning result members rest
              (snd (emit (AllSettled ok) w1)) Hmembers)
    as (Hout & Hh & Hflag & Hafter).
  split; [exact Hout|]. split; [|split; assumption].
  exists ([AwaitAll] ++ evs ++ [AllSettled ok] ++
          match result with
          | Throw e => [ConsoleError sync_failed e]
          | Normal _ => []
          end)%list.
  split; [|split; [|split]].
  - rewrite Hh. cbn [emit snd history] in *. rewrite Hh1.
    now rewrite <- !app_assoc.
  - rewrite !forallb_app. cbn [forallb].
    replace (forallb not_setLoading evs) with true.
    + now destruct result.
    + symmetry. rewrite forallb_forall in *. intros ev Hev.
      specialize (Hevs ev Hev). now destruct ev.
  - now left.
  - exists ok. apply in_or_app. right. apply in_or_app. right. now left.
Qed.

(** What one call of the loader does, whatever [loadNotifications] is. *)
Lemma loadDashboardData_shape (self : Controller) (host : Host) (net : Network)
    (schedule : list nat) (w : World) :
  let r := loadDashboardData self host net schedule w in
  outcome r = Some (Normal tt) /\
  (exists during,
      history (at_return r) =
        (history w ++ [Invoke (SetLoading true)] ++ during
                   ++ [Invoke (SetLoading false)])%list /\
      forallb not_setLoading during = true /\
      (group_built self = true ->
         In AwaitAll during /\ exists ok, In (AllSettled ok) during) /\
      (loadNotifications self = None ->
         during =
           (Invoke LoadAppliedJobs ::
            match getElementById "appliedJobsTable" (document w) with
            | Some _ => [Fetch applications_url]
            | None => []
            end ++
            [ConsoleError sync_failed
               (TypeError "this.loadNotifications is not a function")])%list)) /\
  is_loading (at_return r) = false /\
  undisturbed is_warning (at_return r) (afterwards r) /\
  (loadNotifications self = None -> undisturbed no_event (at_return r) (afterwards r)).
Proof.
  unfold loadDashboardData.
  destruct (setLoading_spec true w) as (w1 & -> & Hh1 & Hids & _). cbn [snd].
  destruct (loadAppliedJobs_well_behaved host net w1) as (pa & w2 & -> & Hpa & Hdoc & Hh2).
  rewrite Hids in Hh2.
  set (started := Invoke LoadAppliedJobs ::
                  match getElementById "appliedJobsTable" (document w) with
                  | Some _ => [Fetch applications_url]
                  | None => []
                  end) in *.
  assert (Hstarted : forallb not_setLoading started = true).
  { unfold started. now destruct (getElementById "appliedJobsTable" (document w)). }
  assert (Hpa' : well_behaved is_warning pa)
    by (apply (well_behaved_weaken no_event); [discriminate|exact Hpa]).
  assert (Hthrow : forall e we,
    history we = (history w2 ++ match loadNotifications self with
                                | None => []
                                | Some _ => [Invoke LoadNotifications]
                                end)%list ->
    group_built self = false ->
    (loadNotifications self = None ->
       e = TypeError "this.loadNotifications is not a function") ->
    let r := resume_loader (Throw e) [pa] (arrival_order schedule 1) we in
    outcome r = Some (Normal tt) /\
    (exists during,
        history (at_return r) =
          (history w ++ [Invoke (SetLoading true)] ++ during
                     ++ [Invoke (SetLoading false)])%list /\
        forallb not_setLoading during = true /\
        (group_built self = true ->
           In AwaitAll during /\ exists ok, In (AllSettled ok) during) /\
        (loadNotifications self = None ->
           during = (started ++ [ConsoleError sync_failed
                       (TypeError "this.loadNotifications is not a function")])%list)) /\
    is_loading (at_return r) = false /\
    undisturbed is_warning (at_return r) (afterwards r) /\
    (loadNotifications self = None -> undisturbed no_event (at_return r) (afterwards r))).
  { intros e we Hwe Hbuilt Herr.
    destruct (resume_loader_spec no_event (Throw e) [pa] (arrival_order schedule 1) we)
      as (Hout & Hh & Hflag & Hafter); [now constructor|].
    split; [exact Hout|]. split; [|split; [exact Hflag|split]].
    - exists (started ++ match loadNotifications self with
                         | None => []
                         | Some _ => [Invoke LoadNotifications]
                         end ++ [ConsoleError sync_failed e])%list.
      split; [|split; [|split]].
      + rewrite Hh, Hwe, Hh2, Hh1. now rewrite <- !app_assoc.
      + rewrite !forallb_app, Hstarted. now destruct (loadNotifications self).
      + rewrite Hbuilt. discriminate.
      + intros Hnone. rewrite (Herr Hnone), Hnone. reflexivity.
    - apply (undisturbed_weaken no_event); [discriminate|exact Hafter].
    - intros _. exact Hafter. }
  assert (Hgroup : forall pn we,
    well_behaved no_event pn ->
    history we = (history w2 ++ [Invoke LoadNotifications])%list ->
    loadNotifications self <> None ->
    let r := (let (kpis, w3) := updateKPIs net we in
              await_group [pa; pn; kpis] (arrival_order schedule 3) w3) in
    outcome r = Some (Normal tt) /\
    (exists during,
        history (at_return r) =
          (history w ++ [Invoke (SetLoading true)] ++ during
                     ++ [Invoke (SetLoading false)])%list /\
        forallb not_setLoading during = true /\
        (group_built self = true ->
           In AwaitAll during /\ exists ok, In (AllSettled ok) during) /\
        (loadNotifications self = None ->
           during = (started ++ [ConsoleError sync_failed
                       (TypeError "this.loadNotifications is not a function")])%list)) /\
    is_loading (at_return r) = false /\
    undisturbed is_warning (at_return r) (afterwards r) /\
    (loadNotifications self = None -> undisturbed no_event (at_return r) (afterwards r))).
  { intros pn we Hpn Hwe Hsome. unfold updateKPIs. cbn [emit snd].
    match goal with |- context [await_group ?g ?a ?w3] =>
      destruct (await_group_spec g a w3)
        as (Hout & (during & Hh & Hduring & Hall & Hsettled) & Hflag & Hafter) end.
    - apply Forall_cons; [exact Hpa'|].
      apply Forall_cons;
        [apply (well_behaved_weaken no_event); [discriminate|exact Hpn]|].
      apply Forall_cons; [apply updateKPIs_resume_well_behaved|apply Forall_nil].
    - intros j Hj. exact (arrival_order_covers schedule _ j Hj).
    - split; [exact Hout|]. split; [|split; [exact Hflag|split; [exact Hafter|]]].
      + exists (started ++ [Invoke LoadNotifications; Invoke UpdateKPIs; Fetch stats_url]
                        ++ during)%list.
        split; [|split; [|split]].
        * rewrite Hh. cbn [history]. rewrite Hwe, Hh2, Hh1.
          now rewrite <- !app_assoc.
        * rewrite !forallb_app, Hstarted, Hduring. reflexivity.
        * intros _. split.
          -- apply in_or_app. right. apply in_or_app. now right.
          -- destruct Hsettled as (ok & Hok). exists ok.
             apply in_or_app. right. apply in_or_app. now right.
        * intros Hnone. contradiction.
      + intros Hnone. contradiction. }
  unfold call_loadNotifications, bind, emit, lift, ret.
  destruct (loadNotifications self) as [[e| |e| |e]|] eqn:Hn.
  - apply Hthrow; [reflexivity|unfold group_built; now rewrite Hn|discriminate].
  - apply Hgroup; [exact I|reflexivity|discriminate].
  - apply Hgroup; [exact I|reflexivity|discriminate].
  - apply Hgroup; [|reflexivity|discriminate]. intros w0. apply undisturbed_refl.
  - apply Hgroup; [|reflexivity|discriminate]. intros w0. apply undisturbed_refl.
  - apply Hthrow; [cbn [history]; now rewrite app_nil_r
                  |unfold group_built; now rewrite Hn|reflexivity].
Qed.


(** C2: when nothing has added [loadNotifications] to the controller, every
    call of the loader goes the same way: after [setLoading(true)] and the
    start of [loadAppliedJobs], the call of the missing method throws a
    TypeError; the [catch] logs "Dashboard data sync failed:" with that
    error; [updateKPIs] is not called and the statistics are not requested;
    [finally] clears the loading state.  Nothing is logged afterwards. *)
Theorem missing_loadNotifications (self : Controller) (host : Host)
    (net : Network) (schedule : list nat) (w : World) :
  loadNotifications self = None ->
  let r := loadDashboardData self host net schedule w in
  let error := TypeError "this.loadNotifications is not a function" in
  let events :=
    ([Invoke (SetLoading true); Invoke LoadAppliedJobs] ++
     match getElementById "appliedJobsTable" (document w) with
     | Some _ => [Fetch applications_url]
     | None => []
     end ++
     [ConsoleError sync_failed error; Invoke (SetLoading false)])%list in
  outcome r = Some (Normal tt) /\
  history (at_return r) = (history w ++ events)%list /\
  history (afterwards r) = history (at_return r) /\
  In (ConsoleError sync_failed error) events /\
  ~ In (Invoke UpdateKPIs) events /\
  ~ In (Fetch stats_url) events /\
  is_loading (at_return r) = false /\
  is_loading (afterwards r) = false.
Proof.
  intros Hnone.
  destruct (loadDashboardData_shape self host net schedule w)
    as (Hout & (during & Hh & _ & _ & Hduring) & Hflag & _ & Hafter).
  specialize (Hduring Hnone). specialize (Hafter Hnone). cbv zeta.
  split; [exact Hout|]. split; [|split; [|split; [|split; [|split; [|split]]]]].
  - rewrite Hh, Hduring. cbn [app]. now rewrite <- !app_assoc.
  - destruct Hafter as (_ & later & Hlater & Hnothing).
    rewrite Hlater, (no_events_at_all later Hnothing). apply app_nil_r.
  - destruct (getElementById "appliedJobsTable" (document w)); cbn; tauto.
  - destruct (getElementById "appliedJobsTable" (document w)); cbn;
      intuition discriminate.
  - destruct (getElementById "appliedJobsTable" (document w)); cbn;
      intuition discriminate.
  - exact Hflag.
  - now rewrite (is_loading_undisturbed _ _ _ Hafter).
Qed.

Lemma missing_loadNotifications_witness :
  let net := answering (Body (JArr [sample_application])) (Body sample_stats) in
  let r := loadDashboardData as_defined utc_browser net [] (world_of sample_page) in
  loadNotifications as_defined = None /\
  outcome r = Some (Normal tt) /\
  history (afterwards r) =
    [ Invoke (SetLoading true); Invoke LoadAppliedJobs; Fetch applications_url;
      ConsoleError sync_failed (TypeError "this.loadNotifications is not a function");
      Invoke (SetLoading false) ] /\
  is_loading (afterwards r) = false.
Proof.
  intros net r.
  destruct (missing_loadNotifications as_defined utc_browser net []
              (world_of sample_page) eq_refl)
    as (Hout & Hh & Hafter & _ & _ & _ & _ & Hflag).
  split; [reflexivity|]. split; [exact Hout|]. split; [|exact Hflag].
  unfold r. rewrite Hafter, Hh. reflexivity.
Defined.


(** * Further properties *)

Import Startup Further.

(** ** getStatusBadge on every string *)

(** X1: on a string the call never throws, and what it returns is decided by
    the lower case of the string alone: the badge of one of the four keys,
    the neutral badge, or, for the two lower-case names that the object
    literal inherits, the inherited object. *)
Theorem getStatusBadge_on_strings (s : string) :
  getStatusBadge (JStr s) = Normal (looked_up (toLowerCase s)).
Proof.
  unfold looked_up.
  destruct (String.eqb (toLowerCase s) "constructor") eqn:Hc.
  - apply String.eqb_eq in Hc. unfold getStatusBadge. cbn [call_toLowerCase cbind].
    now rewrite Hc.
  - destruct (String.eqb (toLowerCase s) "__proto__") eqn:Hp.
    + apply String.eqb_eq in Hp. unfold getStatusBadge. cbn [call_toLowerCase cbind].
      now rewrite Hp.
    + apply String.eqb_neq in Hc, Hp. now apply getStatusBadge_specified.
Qed.

(** ** The calendar *)

Lemma year_of_era_recovered (yoe doy : Z) :
  0 <= yoe < 400 -> 0 <= doy ->
  (doy <= 364 \/ (doy = 365 /\ (yoe + 1) mod 4 = 0 /\
                  ((yoe + 1) mod 100 <> 0 \/ yoe = 399))) ->
  let doe := yoe * 365 + yoe / 4 - yoe / 100 + doy in
  (doe - doe / 1460 + doe / 36524 - doe / 146096) / 365 = yoe /\ 0 <= doe < 146097.
Proof.
  intros Hy Hd Hl doe. subst doe. split; Z.div_mod_to_equations; lia.
Qed.

Lemma is_leap_spec (y : Z) :
  is_leap y = true <-> (y mod 4 = 0 /\ (y mod 100 <> 0 \/ y mod 400 = 0)).
Proof.
  unfold is_leap.
  destruct (Z.eqb_spec (y mod 4) 0), (Z.eqb_spec (y mod 100) 0),
           (Z.eqb_spec (y mod 400) 0);
    simpl; (split; [intros H; try discriminate|intros H; try reflexivity]);
    Z.div_mod_to_equations; lia.
Qed.

Lemma days_in_month_cases (y m d : Z) :
  1 <= m <= 12 -> d <= days_in_month y m ->
  (m = 2 /\ (d <= 28 \/ (d <= 29 /\ y mod 4 = 0 /\ (y mod 100 <> 0 \/ y mod 400 = 0)))) \/
  ((m = 4 \/ m = 6 \/ m = 9 \/ m = 11) /\ d <= 30) \/
  ((m = 1 \/ m = 3 \/ m = 5 \/ m = 7 \/ m = 8 \/ m = 10 \/ m = 12) /\ d <= 31).
Proof.
  intros Hm. unfold days_in_month.
  destruct (Z.eqb_spec m 2) as [->|H2].
  - destruct (is_leap y) eqn:Hleap; [apply is_leap_spec in Hleap|]; intros Hd; left; split;
      try reflexivity; [right|left]; tauto || lia.
  - destruct (Z.eqb_spec m 4), (Z.eqb_spec m 6), (Z.eqb_spec m 9), (Z.eqb_spec m 11);
      simpl; intros Hd; lia.
Qed.

(** The day of the year counted from 1 March gives back the month and the
    day, and is the leap day only in a leap year. *)
Lemma day_of_year_recovered (y m d : Z) :
  1 <= m <= 12 -> 1 <= d <= days_in_month y m ->
  let a := if m <=? 2 then y - 1 else y in
  let yoe := a - a / 400 * 400 in
  let mp := if 2 <? m then m - 3 else m + 9 in
  let doy := (153 * mp + 2) / 5 + d - 1 in
  0 <= yoe < 400 /\ 0 <= doy /\
  (doy <= 364 \/ (doy = 365 /\ (yoe + 1) mod 4 = 0 /\
                  ((yoe + 1) mod 100 <> 0 \/ yoe = 399))) /\
  (5 * doy + 2) / 153 = mp /\ doy - (153 * mp + 2) / 5 + 1 = d /\
  (if mp <? 10 then mp + 3 else mp - 9) = m.
Proof.
  intros Hm [Hd1 Hd].
  pose proof (days_in_month_cases y m d Hm Hd) as Hcases.
  destruct (Z.leb_spec m 2) as [Hle|Hgt]; destruct (Z.ltb_spec 2 m) as [Hlt|Hge];
    try lia; cbv zeta.
  - assert (Hmp : m = 1 \/ m = 2) by lia.
    destruct Hmp as [-> | ->];
      (destruct (Z.ltb_spec (1 + 9) 10) || destruct (Z.ltb_spec (2 + 9) 10)); try lia;
      repeat split; Z.div_mod_to_equations; lia.
  - destruct (Z.ltb_spec (m - 3) 10); try lia.
    assert (Hmp : m = 3 \/ m = 4 \/ m = 5 \/ m = 6 \/ m = 7 \/ m = 8 \/ m = 9 \/
                  m = 10 \/ m = 11 \/ m = 12) by lia.
    destruct Hmp as [->|[->|[->|[->|[->|[->|[->|[->|[->| ->]]]]]]]]];
      repeat split; Z.div_mod_to_equations; lia.
Qed.

(** From a day to its number and back. *)
Lemma civil_round_trip (y m d : Z) :
  1 <= m <= 12 -> 1 <= d <= days_in_month y m ->
  civil_from_days (days_from_civil y m d) = (y, m, d).
Proof.
  intros Hm Hd.
  pose proof (day_of_year_recovered y m d Hm Hd) as H. cbv zeta in H.
  unfold days_from_civil.
  set (a := if m <=? 2 then y - 1 else y) in *.
  set (era := a / 400) in *.
  set (yoe := a - era * 400) in *.
  set (mp := if 2 <? m then m - 3 else m + 9) in *.
  set (doy := (153 * mp + 2) / 5 + d - 1) in *.
  destruct H as (Hyoe & Hdoy0 & Hleap & Hmp & Hd' & Hm').
  destruct (year_of_era_recovered yoe doy Hyoe Hdoy0 Hleap) as (Hy' & Hdoe).
  set (doe := yoe * 365 + yoe / 4 - yoe / 100 + doy) in *.
  unfold civil_from_days.
  replace (era * 146097 + doe - 719468 + 719468) with (doe + era * 146097) by lia.
  rewrite Z.div_add by lia. rewrite (Z.div_small doe) by lia. cbn [Z.add].
  replace (doe + era * 146097 - era * 146097) with doe by lia.
  rewrite Hy'.
  replace (doe - (365 * yoe + yoe / 4 - yoe / 100)) with doy by (unfold doe; lia).
  rewrite Hmp, Hd', Hm'.
  do 2 f_equal.
  unfold yoe, a. destruct (m <=? 2); lia.
Qed.

Lemma parse_iso_date_valid (s : string) (y m d : Z) :
  parse_iso_date s = Some (y, m, d) ->
  1 <= m <= 12 /\ 1 <= d <= days_in_month y m.
Proof.
  unfold parse_iso_date.
  destruct (list_ascii_of_string s) as [|c1 [|c2 [|c3 [|c4 [|c5 [|c6 [|c7 [|c8 [|c9 [|c10 [|c11 l]]]]]]]]]]];
    try discriminate.
  destruct (digit c1), (digit c2), (digit c3), (digit c4),
           (digit c6), (digit c7), (digit c9), (digit c10); try discriminate.
  cbv zeta.
  match goal with |- (if _ then Some (?yy, ?mm, ?dd) else _) = _ -> _ =>
    generalize yy mm dd; intros yy' mm' dd' end.
  match goal with |- (if ?b then _ else _) = _ -> _ => destruct b eqn:Hb end;
    [|discriminate].
  intros E. assert (yy' = y /\ mm' = m /\ dd' = d) as (<- & <- & <-)
    by (repeat split; congruence).
  repeat (apply andb_prop in Hb; destruct Hb as [Hb ?]).
  repeat match goal with H : (_ <=? _) = true |- _ => apply Z.leb_le in H end.
  lia.
Qed.

(** The day before a day of the calendar is a day of the calendar, and its
    number is one less. *)
Lemma previous_day_number (y m d : Z) :
  1 <= m <= 12 -> 1 <= d <= days_in_month y m ->
  let '(y', m', d') := previous_day y m d in
  1 <= m' <= 12 /\ 1 <= d' <= days_in_month y' m' /\
  days_from_civil y' m' d' = days_from_civil y m d - 1.
Proof.
  intros Hm Hd. unfold previous_day.
  destruct (Z.ltb_spec 1 d) as [Hd1|Hd1].
  - split; [lia|]. split; [lia|].
    unfold days_from_civil. lia.
  - assert (d = 1) by lia. subst d.
    destruct (Z.ltb_spec 1 m) as [Hm1|Hm1].
    + split; [lia|]. split.
      * unfold days_in_month.
        destruct (m - 1 =? 2); [destruct (is_leap y); lia|].
        destruct ((m - 1 =? 4) || (m - 1 =? 6) || (m - 1 =? 9) || (m - 1 =? 11)); lia.
      * assert (Hcases : m = 2 \/ m = 3 \/ m = 4 \/ m = 5 \/ m = 6 \/ m = 7 \/ m = 8 \/
                         m = 9 \/ m = 10 \/ m = 11 \/ m = 12) by lia.
        unfold days_from_civil.
        destruct Hcases as [->|[->|[->|[->|[->|[->|[->|[->|[->|[->| ->]]]]]]]]]];
          try (cbv [days_in_month]; cbn [Z.sub Z.pos_sub Z.eqb Pos.eqb orb Z.leb Z.ltb
                 Z.compare Pos.compare Pos.compare_cont Z.add Pos.add Pos.succ Z.opp
                 Pos.pred_double Z.succ_double Z.pred_double Z.double];
               Z.div_mod_to_equations; lia).
        cbv [days_in_month].
        cbn [Z.sub Z.pos_sub Z.eqb Pos.eqb orb Z.leb Z.ltb
                 Z.compare Pos.compare Pos.compare_cont Z.add Pos.add Pos.succ Z.opp
                 Pos.pred_double Z.succ_double Z.pred_double Z.double].
        destruct (is_leap y) eqn:Hleap.
        -- apply is_leap_spec in Hleap. Z.div_mod_to_equations. lia.
        -- assert (Hn : ~ (y mod 4 = 0 /\ (y mod 100 <> 0 \/ y mod 400 = 0))).
           { intros H. apply is_leap_spec in H. congruence. }
           Z.div_mod_to_equations. lia.
    + assert (m = 1) by lia. subst m.
      split; [lia|]. split; [change (days_in_month (y - 1) 12) with 31; lia|].
      unfold days_from_civil.
      cbn [Z.sub Z.pos_sub Z.eqb Pos.eqb orb Z.leb Z.ltb
                 Z.compare Pos.compare Pos.compare_cont Z.add Pos.add Pos.succ Z.opp
                 Pos.pred_double Z.succ_double Z.pred_double Z.double].
      Z.div_mod_to_equations. lia.
Qed.

Lemma local_day_number (n off : Z) :
  (0 <= off < msPerDay -> (n * msPerDay + off) / msPerDay = n) /\
  (- msPerDay <= off < 0 -> (n * msPerDay + off) / msPerDay = n - 1).
Proof.
  unfold msPerDay. split; intros H; symmetry.
  - apply Z.div_unique with (r := off); lia.
  - apply Z.div_unique with (r := off + 86400000); lia.
Qed.

Lemma formatDate_iso (host : Host) (s : string) (y m d : Z) :
  parse_iso_date s = Some (y, m, d) ->
  formatDate host (JStr s) =
  Normal (date_text host
            (civil_from_days
               ((days_from_civil y m d * msPerDay
                 + tz_offset host (days_from_civil y m d * msPerDay)) / msPerDay))).
Proof.
  intros Hs. unfold formatDate, new_Date, Date_parse. cbn [cbind]. rewrite Hs.
  unfold toLocaleDateString, date_text. reflexivity.
Qed.

(** ** formatDate on date-only strings *)

(** X2: in a browser whose local time is at or ahead of UTC (by less than a
    day) at the midnight UTC that a date-only string names, [formatDate]
    prints the very day the string names. *)
Theorem formatDate_prints_the_day_given (host : Host) (s : string) (y m d : Z) :
  parse_iso_date s = Some (y, m, d) ->
  0 <= tz_offset host (days_from_civil y m d * msPerDay) < msPerDay ->
  formatDate host (JStr s) = Normal (date_text host (y, m, d)).
Proof.
  intros Hs Hoff. rewrite (formatDate_iso host s y m d Hs).
  destruct (parse_iso_date_valid s y m d Hs) as [Hm Hd].
  rewrite (proj1 (local_day_number _ _) Hoff).
  now rewrite civil_round_trip.
Qed.

Lemma formatDate_prints_the_day_given_witness :
  parse_iso_date "2024-02-29" = Some (2024, 2, 29) /\
  0 <= tz_offset utc_browser (days_from_civil 2024 2 29 * msPerDay) < msPerDay /\
  formatDate utc_browser (JStr "2024-02-29") = Normal "Feb 29, 2024".
Proof.
  split; [reflexivity|]. split; [unfold msPerDay; simpl; lia|].
  apply (formatDate_prints_the_day_given utc_browser "2024-02-29" 2024 2 29).
  - reflexivity.
  - unfold msPerDay. simpl. lia.
Defined.

(** X3: in a browser whose local time is behind UTC (by a day at most) at that
    midnight, [formatDate] prints the day before the one the string
    names. *)
Theorem formatDate_prints_the_day_before (host : Host) (s : string) (y m d : Z) :
  parse_iso_date s = Some (y, m, d) ->
  - msPerDay <= tz_offset host (days_from_civil y m d * msPerDay) < 0 ->
  formatDate host (JStr s) = Normal (date_text host (previous_day y m d)).
Proof.
  intros Hs Hoff. rewrite (formatDate_iso host s y m d Hs).
  destruct (parse_iso_date_valid s y m d Hs) as [Hm Hd].
  rewrite (proj2 (local_day_number _ _) Hoff).
  pose proof (previous_day_number y m d Hm Hd) as Hprev.
  destruct (previous_day y m d) as [[y' m'] d'].
  destruct Hprev as (Hm' & Hd' & <-).
  now rewrite civil_round_trip.
Qed.

Lemma formatDate_prints_the_day_before_witness :
  parse_iso_date "2024-03-01" = Some (2024, 3, 1) /\
  - msPerDay <= tz_offset utc_minus_5_browser (days_from_civil 2024 3 1 * msPerDay) < 0 /\
  formatDate utc_minus_5_browser (JStr "2024-03-01") = Normal "Feb 29, 2024".
Proof.
  split; [reflexivity|]. split; [unfold msPerDay; simpl; lia|].
  apply (formatDate_prints_the_day_before utc_minus_5_browser "2024-03-01" 2024 3 1).
  - reflexivity.
  - unfold msPerDay. simpl. lia.
Defined.

(** ** Start-up *)

Lemma strip_prefix_complete (p rest : string) : strip_prefix p (p ++ rest) = Some rest.
Proof.
  induction p as [|a p IH]; simpl; [reflexivity|]. now rewrite Ascii.eqb_refl.
Qed.

Lemma split_at_complete (before part after : string) :
  split_at part (before ++ part ++ after) <> None.
Proof.
  induction before as [|c before IH]; simpl.
  - destruct (part ++ after) eqn:E; simpl; rewrite <- E, strip_prefix_complete; discriminate.
  - destruct (strip_prefix part (String c (before ++ part ++ after))); [discriminate|].
    destruct (split_at part (before ++ part ++ after)) as [[b a]|]; [discriminate|].
    contradiction.
Qed.

Lemma includes_spec (part s : string) : includes part s = true <-> contains part s.
Proof.
  unfold includes. split.
  - intros H. apply split_at_contains. destruct (split_at part s); [discriminate|discriminate].
  - intros (before & after & ->).
    pose proof (split_at_complete before part after) as H.
    destruct (split_at part (before ++ part ++ after)); [reflexivity|contradiction].
Qed.

(** X14: the listener starts the controller exactly on the pages whose path
    contains "/jobseeker" somewhere; on every other page it calls
    nothing. *)
Theorem auto_start_iff_path_has_marker (pathname : string) (base : option BaseDashboard)
    (self : Controller) (host : Host) (net : Network) (schedule : list nat) (w : World) :
  (contains "/jobseeker" pathname ->
     on_DOMContentLoaded pathname base self host net schedule w
     = Some (init base self host net schedule w)) /\
  (~ contains "/jobseeker" pathname ->
     on_DOMContentLoaded pathname base self host net schedule w = None).
Proof.
  unfold on_DOMContentLoaded. split; intros H.
  - apply includes_spec in H. now rewrite H.
  - destruct (includes "/jobseeker" pathname) eqn:E; [|reflexivity].
    apply includes_spec in E. contradiction.
Qed.

Lemma not_contains (part s : string) : split_at part s = None -> ~ contains part s.
Proof.
  intros H Hc. apply includes_spec in Hc. unfold includes in Hc. now rewrite H in Hc.
Qed.

Lemma auto_start_iff_path_has_marker_witness :
  contains "/jobseeker" "/employer/jobseeker-search" /\
  ~ contains "/jobseeker" "/employer/dashboard" /\
  on_DOMContentLoaded "/employer/jobseeker-search" None as_defined utc_browser
    (answering Undecodable Undecodable) [] (world_of sample_page)
  = Some (init None as_defined utc_browser (answering Undecodable Undecodable) []
            (world_of sample_page)) /\
  on_DOMContentLoaded "/employer/dashboard" None as_defined utc_browser
    (answering Undecodable Undecodable) [] (world_of sample_page) = None.
Proof.
  assert (Hyes : contains "/jobseeker" "/employer/jobseeker-search") by find_literal.
  assert (Hno : ~ contains "/jobseeker" "/employer/dashboard")
    by (apply not_contains; reflexivity).
  split; [exact Hyes|]. split; [exact Hno|].
  split.
  - exact (proj1 (auto_start_iff_path_has_marker _ None as_defined utc_browser
                    (answering Undecodable Undecodable) [] (world_of sample_page)) Hyes).
  - exact (proj2 (auto_start_iff_path_has_marker _ None as_defined utc_browser
                    (answering Undecodable Undecodable) [] (world_of sample_page)) Hno).
Defined.

(** X13: [init] loads the data only when the base dashboard, if there is one,
    has initialised without failing.  Then it completes normally with the
    loading flag down.  When the base fails, [init] ends with that
    failure, and nothing of the loader has run: the world is as the base
    left it. *)
Theorem init_loads_data_unless_base_fails (base : option BaseDashboard)
    (self : Controller) (host : Host) (net : Network) (schedule : list nat) (w : World) :
  let r := init base self host net schedule w in
  match base with
  | Some b =>
      match base_result b with
      | Throw e =>
          outcome r = Some (Throw e) /\
          at_return r = base_effect b w /\ afterwards r = base_effect b w
      | Normal _ =>
          r = loadDashboardData self host net schedule (base_effect b w) /\
          outcome r = Some (Normal tt) /\
          is_loading (at_return r) = false /\ is_loading (afterwards r) = false
      end
  | None =>
      r = loadDashboardData self host net schedule w /\
      outcome r = Some (Normal tt) /\
      is_loading (at_return r) = false /\ is_loading (afterwards r) = false
  end.
Proof.
  assert (Hload : forall w0,
    let r := loadDashboardData self host net schedule w0 in
    outcome r = Some (Normal tt) /\
    is_loading (at_return r) = false /\ is_loading (afterwards r) = false).
  { intros w0.
    destruct (loadDashboardData_shape self host net schedule w0)
      as (Hout & _ & Hflag & Hafter & _).
    cbv zeta. split; [exact Hout|]. split; [exact Hflag|].
    now rewrite (is_loading_undisturbed _ _ _ Hafter). }
  unfold init. destruct base as [b|].
  - destruct (base_result b) as [[]|e].
    + split; [reflexivity|]. apply Hload.
    + repeat split.
  - split; [reflexivity|]. apply Hload.
Qed.

(** ** setLoading *)

Lemma update_twice (f g : Element -> Element) (r : Ref) (d : Document) :
  update r f (update r g d) = update r (fun e => f (g e)) d.
Proof.
  revert r. induction d as [|e rest IH]; intros [|r]; simpl; try reflexivity.
  now rewrite IH.
Qed.

Lemma update_nothing (f : Element -> Element) (r : Ref) (d : Document) :
  (forall e, nth_error d r = Some e -> f e = e) -> update r f d = d.
Proof.
  revert r. induction d as [|e rest IH]; intros [|r] Hf; simpl; try reflexivity.
  - now rewrite (Hf e eq_refl).
  - rewrite IH; [reflexivity|exact Hf].
Qed.

Lemma class_added_then_removed (cls : string) (e : Element) :
  has_class cls e = false -> class_remove cls (class_add cls e) = e.
Proof.
  intros Hno. unfold class_remove, class_add. cbn [classList el_id content].
  rewrite Hno. destruct e as [id classes c]. cbn [classList el_id content] in *.
  f_equal. unfold has_class in Hno. cbn [classList] in Hno.
  induction classes as [|x l IH]; simpl in *.
  - now rewrite String.eqb_refl.
  - apply orb_false_elim in Hno. destruct Hno as [Hx Hl].
    rewrite Hx. simpl. now rewrite IH.
Qed.

Lemma class_added_twice (cls : string) (e : Element) :
  class_add cls (class_add cls e) = class_add cls e /\
  has_class cls (class_add cls e) = true.
Proof.
  assert (H : has_class cls (class_add cls e) = true).
  { unfold class_add, has_class. cbn [classList].
    destruct (existsb (String.eqb cls) (classList e)) eqn:E; [exact E|].
    rewrite existsb_app. simpl. now rewrite String.eqb_refl, orb_true_r. }
  split; [|exact H].
  unfold class_add at 1. rewrite H. now destruct (class_add cls e).
Qed.

Lemma setLoading_true_document (w : World) (main : Ref) :
  querySelector_class "dashboard-main" (document w) = Some main ->
  setLoading true w =
  (Normal tt,
   {| document := update main (class_add "loading-fade") (document w);
      location_href := location_href w;
      history := (history w ++ [Invoke (SetLoading true)])%list |}).
Proof. intros H. unfold setLoading, bind, emit. cbn [document]. now rewrite H. Qed.

Lemma setLoading_false_document (w : World) (main : Ref) :
  querySelector_class "dashboard-main" (document w) = Some main ->
  setLoading false w =
  (Normal tt,
   {| document := update main (class_remove "loading-fade") (document w);
      location_href := location_href w;
      history := (history w ++ [Invoke (SetLoading false)])%list |}).
Proof. intros H. unfold setLoading, bind, emit. cbn [document]. now rewrite H. Qed.

Lemma querySelector_after_class_add (main : Ref) (d : Document) :
  querySelector_class "dashboard-main" (update main (class_add "loading-fade") d)
  = querySelector_class "dashboard-main" d.
Proof.
  apply find_index_update. intros e.
  exact (proj2 (has_class_kept "dashboard-main" "loading-fade" e ltac:(discriminate))).
Qed.

(** X8: [setLoading(true)] followed by [setLoading(false)] leaves the document
    exactly as it was, when the loading flag was down to begin with. *)
Theorem setLoading_on_then_off_restores (w : World) :
  is_loading w = false ->
  exists w1 w2,
    setLoading true w = (Normal tt, w1) /\
    setLoading false w1 = (Normal tt, w2) /\
    document w2 = document w /\
    location_href w2 = location_href w.
Proof.
  intros Hflag.
  destruct (querySelector_class "dashboard-main" (document w)) as [main|] eqn:Hmain.
  - rewrite (setLoading_true_document w main Hmain).
    eexists. eexists. split; [reflexivity|].
    rewrite (setLoading_false_document _ main)
      by (cbn [document]; now rewrite querySelector_after_class_add).
    split; [reflexivity|]. cbn [document location_href]. split; [|reflexivity].
    rewrite update_twice. apply update_nothing. intros e He.
    apply class_added_then_removed.
    destruct (find_index_found _ _ _ Hmain) as (e' & He' & _ & Hfind).
    unfold is_loading in Hflag. rewrite Hfind in Hflag. congruence.
  - assert (Hno : forall b, setLoading b w =
              (Normal tt, {| document := document w; location_href := location_href w;
                             history := (history w ++ [Invoke (SetLoading b)])%list |})).
    { intros b. unfold setLoading, bind, emit. cbn [document]. now rewrite Hmain. }
    rewrite Hno. eexists. eexists. split; [reflexivity|].
    unfold setLoading, bind, emit. cbn [document]. rewrite Hmain.
    split; [reflexivity|]. split; reflexivity.
Qed.

Lemma setLoading_on_then_off_restores_witness :
  is_loading (world_of sample_page) = false /\
  exists w1 w2,
    setLoading true (world_of sample_page) = (Normal tt, w1) /\
    setLoading false w1 = (Normal tt, w2) /\
    document w2 = sample_page /\
    location_href w2 = "/jobseeker/dashboard".
Proof.
  split; [reflexivity|].
  exact (setLoading_on_then_off_restores (world_of sample_page) eq_refl).
Defined.

(** X9: [setLoading(true)] raises the flag exactly when the page has a
    [.dashboard-main] element; it changes that element's class list and
    nothing else (no id, no content, no other element); and a second call
    changes nothing more. *)
Theorem setLoading_true_raises_the_flag (w : World) :
  exists w1,
    setLoading true w = (Normal tt, w1) /\
    (is_loading w1 = true <-> querySelector_class "dashboard-main" (document w) <> None) /\
    map el_id (document w1) = map el_id (document w) /\
    map content (document w1) = map content (document w) /\
    (forall r, querySelector_class "dashboard-main" (document w) <> Some r ->
       nth_error (document w1) r = nth_error (document w) r) /\
    exists w2, setLoading true w1 = (Normal tt, w2) /\ document w2 = document w1.
Proof.
  destruct (querySelector_class "dashboard-main" (document w)) as [main|] eqn:Hmain.
  - rewrite (setLoading_true_document w main Hmain). eexists. split; [reflexivity|].
    cbn [document]. split; [|split; [|split; [|split]]].
    + split; [discriminate|]. intros _. unfold is_loading. cbn [document].
      rewrite (find_update_found _ _ _ _
                 (fun e => proj2 (has_class_kept "dashboard-main" "loading-fade" e
                                    ltac:(discriminate))) Hmain).
      destruct (find_index_found _ _ _ Hmain) as (e & _ & _ & ->). simpl.
      apply class_added_twice.
    + clear. generalize (document w) as d. intros d. revert main.
      induction d as [|e rest IH]; intros [|r]; simpl; try reflexivity. now rewrite IH.
    + clear. generalize (document w) as d. intros d. revert main.
      induction d as [|e rest IH]; intros [|r]; simpl; try reflexivity. now rewrite IH.
    + intros r Hr. apply nth_error_update_other. congruence.
    + rewrite (setLoading_true_document _ main)
        by (cbn [document]; now rewrite querySelector_after_class_add).
      eexists. split; [reflexivity|]. cbn [document].
      rewrite update_twice. clear. generalize (document w) as d. intros d. revert main.
      induction d as [|e rest IH]; intros [|r]; simpl; try reflexivity.
      * now rewrite (proj1 (class_added_twice "loading-fade" e)).
      * now rewrite IH.
  - assert (Hno : forall w0, document w0 = document w -> setLoading true w0 =
              (Normal tt, {| document := document w0; location_href := location_href w0;
                             history := (history w0 ++ [Invoke (SetLoading true)])%list |})).
    { intros w0 Hd. unfold setLoading, bind, emit. cbn [document]. now rewrite Hd, Hmain. }
    rewrite (Hno w eq_refl). eexists. split; [reflexivity|]. cbn [document].
    split; [|split; [|split; [|split]]]; try reflexivity.
    + unfold is_loading. cbn [document]. rewrite (find_index_none _ _ Hmain).
      split; [discriminate|congruence].
    + rewrite Hno by reflexivity. eexists. split; reflexivity.
Qed.

(** ** loadAppliedJobs on every answer *)


(** What the resumed body writes is decided by the browser and the
    response alone. *)
Lemma loadAppliedJobs_resume_html (host : Host) (o : FetchOutcome) :
  exists html,
    (forall c w, loadAppliedJobs_resume host c o w = set_innerHTML c html w) /\
    (html = empty_state_markup "📋" "No applications yet" "Start browsing jobs to apply!" \/
     html = error_row \/
     exists items rows,
       o = Body (JArr items) /\ items <> [] /\
       map_elements (render_row host) items = Normal rows /\ html = join rows).
Proof.
  unfold loadAppliedJobs_resume, try_catch, bind, lift.
  destruct o as [| |v]; cbn [await_json];
    try (exists error_row; split; [reflexivity|tauto]).
  destruct (nothing_to_show v) as [[|]|e] eqn:Hshow.
  - eexists. split; [reflexivity|]. now left.
  - destruct (call_map v (render_row host)) as [rows|e] eqn:Hmap.
    + exists (join rows). split; [reflexivity|]. right. right.
      destruct v; try discriminate. exists items, rows.
      split; [reflexivity|]. split; [|split; [exact Hmap|reflexivity]].
      intros ->. discriminate.
    + exists error_row. split; [reflexivity|tauto].
  - exists error_row. split; [reflexivity|tauto].
Qed.

Lemma loadAppliedJobs_run (host : Host) (net : Network) (w : World) (c : Ref) (html : string) :
  getElementById "appliedJobsTable" (document w) = Some c ->
  (forall c w, loadAppliedJobs_resume host c (net applications_url) w
               = set_innerHTML c html w) ->
  run_to_end (loadAppliedJobs host net) w =
  (Normal tt,
   {| document := update c (set_content (Markup html)) (document w);
      location_href := location_href w;
      history := ((history w ++ [Invoke LoadAppliedJobs]) ++ [Fetch applications_url])%list |}).
Proof.
  intros Hc Hresume. unfold run_to_end.
  rewrite (loadAppliedJobs_starts host net w c Hc). cbn [settle].
  now rewrite Hresume, set_innerHTML_result.
Qed.

(** X4: with the container in the page, the call always ends normally, however
    the request ends and whatever it is answered with; it changes the
    content of the container and nothing else in the document, does not
    navigate, and what it leaves in the container is the empty-state
    markup, the error row, or the rows of a non-empty array all of whose
    records rendered. *)
Theorem loadAppliedJobs_always_ends (host : Host) (net : Network) (w : World) (c : Ref) :
  getElementById "appliedJobsTable" (document w) = Some c ->
  exists w' html,
    run_to_end (loadAppliedJobs host net) w = (Normal tt, w') /\
    document w' = update c (set_content (Markup html)) (document w) /\
    location_href w' = location_href w /\
    history w' = (history w ++ [Invoke LoadAppliedJobs; Fetch applications_url])%list /\
    (html = empty_state_markup "📋" "No applications yet" "Start browsing jobs to apply!" \/
     html = error_row \/
     exists items rows,
       net applications_url = Body (JArr items) /\ items <> [] /\
       map_elements (render_row host) items = Normal rows /\ html = join rows).
Proof.
  intros Hc.
  destruct (loadAppliedJobs_resume_html host (net applications_url)) as (html & Hresume & Hhtml).
  eexists _, html. split; [exact (loadAppliedJobs_run host net w c html Hc Hresume)|].
  cbn [document location_href history]. split; [reflexivity|]. split; [reflexivity|].
  split; [now rewrite <- app_assoc|exact Hhtml].
Qed.

Lemma loadAppliedJobs_always_ends_witness :
  let net := answering (Body (JArr [application_without_status])) NetworkError in
  getElementById "appliedJobsTable" sample_page = Some 1%nat /\
  exists w' html,
    run_to_end (loadAppliedJobs utc_browser net) (world_of sample_page) = (Normal tt, w') /\
    document w' = update 1%nat (set_content (Markup html)) sample_page /\
    location_href w' = "/jobseeker/dashboard" /\
    history w' = [Invoke LoadAppliedJobs; Fetch applications_url].
Proof.
  intros net. split; [reflexivity|].
  destruct (loadAppliedJobs_always_ends utc_browser net (world_of sample_page) 1%nat eq_refl)
    as (w' & html & Hrun & Hdoc & Hloc & Hh & _).
  exists w', html. repeat split; assumption.
Defined.

(** The condition of the script's test for nothing to show,
    [!applications || applications.length === 0]. *)
Lemma nothing_to_show_not_array (v : JsValue) :
  (forall items, v <> JArr items) ->
  nothing_to_show v =
  Normal (negb (truthy v) ||
          match get_prop v "length" with
          | Normal len => is_zero len
          | Throw _ => false
          end).
Proof.
  intros Hv. unfold nothing_to_show.
  destruct (truthy v) eqn:Ht; [|reflexivity]. cbn [negb orb].
  destruct v; try discriminate; cbn [get_prop];
    try reflexivity;
    repeat match goal with |- context [match ?x with _ => _ end] => destruct x end;
    reflexivity.
Qed.

(** X5: when the request is answered by something that is not an array, no
    table is drawn: the container shows the empty state when the value is
    falsy ([null], [false], [0], the empty string) or has a [length] of 0,
    and the error row otherwise, as for an object that reports an error. *)
Theorem loadAppliedJobs_answer_not_an_array (host : Host) (net : Network) (w : World)
    (c : Ref) (v : JsValue) :
  getElementById "appliedJobsTable" (document w) = Some c ->
  net applications_url = Body v ->
  (forall items, v <> JArr items) ->
  exists w',
    run_to_end (loadAppliedJobs host net) w = (Normal tt, w') /\
    content_of "appliedJobsTable" (document w') =
    Some (Markup
            (if (negb (truthy v) ||
                 match get_prop v "length" with
                 | Normal len => is_zero len
                 | Throw _ => false
                 end)%bool
             then empty_state_markup "📋" "No applications yet"
                    "Start browsing jobs to apply!"
             else error_row)).
Proof.
  intros Hc Hnet Hv.
  apply (loadAppliedJobs_writes host net w c _ Hc).
  intros w1. rewrite Hnet.
  unfold loadAppliedJobs_resume, try_catch, bind, lift. cbn [await_json].
  rewrite (nothing_to_show_not_array v Hv).
  destruct (negb (truthy v) || _)%bool; [reflexivity|].
  destruct v; try reflexivity. exfalso. exact (Hv items eq_refl).
Qed.

Lemma loadAppliedJobs_answer_not_an_array_witness :
  let report := JObj [("error", JStr "not signed in")] in
  let net := answering (Body report) NetworkError in
  getElementById "appliedJobsTable" sample_page = Some 1%nat /\
  net applications_url = Body report /\
  (forall items, report <> JArr items) /\
  exists w',
    run_to_end (loadAppliedJobs utc_browser net) (world_of sample_page) = (Normal tt, w') /\
    content_of "appliedJobsTable" (document w') = Some (Markup error_row).
Proof.
  intros report net. split; [reflexivity|]. split; [reflexivity|].
  split; [discriminate|].
  exact (loadAppliedJobs_answer_not_an_array utc_browser net (world_of sample_page)
           1%nat report eq_refl eq_refl ltac:(discriminate)).
Defined.



(** ** updateKPIs on every answer *)

Lemma map_update_kept {A} (g : Element -> A) (f : Element -> Element) (r : Ref)
    (d : Document) :
  (forall e, g (f e) = g e) -> map g (update r f d) = map g d.
Proof.
  intros H. revert r. induction d as [|e rest IH]; intros [|r]; simpl; try reflexivity.
  - now rewrite H.
  - now rewrite IH.
Qed.

(** The loop over the counters touches nothing but the content of the
    elements found under the ids of [kpiMap]. *)
Lemma write_kpis_frame (kpiMap : list (string * JsValue)) (w w' : World)
    (result : Completion unit) :
  write_kpis kpiMap w = (result, w') ->
  location_href w' = location_href w /\
  history w' = history w /\
  map el_id (document w') = map el_id (document w) /\
  map classList (document w') = map classList (document w) /\
  (forall id, getElementById id (document w') = getElementById id (document w)) /\
  (forall r,
     (forall id, In id (map fst kpiMap) -> getElementById id (document w) <> Some r) ->
     nth_error (document w') r = nth_error (document w) r).
Proof.
  revert w. induction kpiMap as [|[id0 v0] rest IH]; intros w.
  - intros [= <- <-]. repeat split.
  - cbn [write_kpis]. unfold bind at 1.
    destruct (getElementById id0 (document w)) as [el|] eqn:Hel.
    + unfold bind at 1, lift. destruct (to_string v0) as [text|e].
      * unfold set_textContent, with_document. intros Hrun.
        destruct (IH _ Hrun) as (Hloc & Hh & Hids & Hcls & Hlook & Hframe).
        cbn [document location_href history] in *.
        split; [exact Hloc|]. split; [exact Hh|].
        split; [rewrite Hids; now apply map_update_kept|].
        split; [rewrite Hcls; now apply map_update_kept|].
        split; [intros id; rewrite Hlook; apply getElementById_set_content|].
        intros r Hr. rewrite Hframe.
        -- apply nth_error_update_other. intros ->. apply (Hr id0); [now left|exact Hel].
        -- intros id Hid. rewrite getElementById_set_content. apply Hr. now right.
      * intros [= <- <-]. repeat split.
    + unfold ret at 1. intros Hrun.
      destruct (IH _ Hrun) as (Hloc & Hh & Hids & Hcls & Hlook & Hframe).
      repeat split; try assumption.
      intros r Hr. apply Hframe. intros id Hid. apply Hr. now right.
Qed.

Lemma build_kpiMap_ids (stats : JsValue) (keys : list (string * string))
    (kpiMap : list (string * JsValue)) :
  build_kpiMap stats keys = Normal kpiMap -> map fst kpiMap = map fst keys.
Proof.
  revert kpiMap. induction keys as [|[id field] rest IH]; intros kpiMap; simpl.
  - now intros [= <-].
  - destruct (get_prop stats field) as [v|e]; [|discriminate]. cbn [cbind].
    destruct (build_kpiMap stats rest) as [others|e]; [|discriminate]. cbn [cbind].
    intros [= <-]. simpl. now rewrite (IH others eq_refl).
Qed.

Lemma updateKPIs_resume_frame (o : FetchOutcome) (w : World) :
  exists w' warned,
    updateKPIs_resume o w = (Normal tt, w') /\
    location_href w' = location_href w /\
    map el_id (document w') = map el_id (document w) /\
    map classList (document w') = map classList (document w) /\
    (forall id, getElementById id (document w') = getElementById id (document w)) /\
    (forall r,
       (forall id, In id kpi_ids -> getElementById id (document w) <> Some r) ->
       nth_error (document w') r = nth_error (document w) r) /\
    history w' =
      (history w ++ if warned : bool then [ConsoleWarn "Could not update KPIs"] else [])%list.
Proof.
  unfold updateKPIs_resume, try_catch, bind at 1, lift.
  destruct (await_json o) as [stats|e].
  - unfold bind at 1. destruct (build_kpiMap stats kpi_keys) as [kpiMap|e] eqn:Hmap.
    + destruct (write_kpis kpiMap w) as [result w2] eqn:Hrun.
      pose proof (write_kpis_frame kpiMap w w2 result Hrun) as H.
      rewrite (build_kpiMap_ids _ _ _ Hmap) in H.
      destruct H as (Hloc & Hh & Hids & Hcls & Hlook & Hframe).
      destruct result as [[]|e]; cbn [snd emit] in *.
      * exists w2, false. split; [reflexivity|]. repeat split; try assumption.
        now rewrite app_nil_r.
      * eexists _, true. split; [reflexivity|]. cbn [document location_href history].
        repeat split; try assumption. now rewrite Hh.
    + eexists _, true. split; [reflexivity|]. repeat split.
  - eexists _, true. split; [reflexivity|]. repeat split.
Qed.

(** X7: the call always ends normally, however the request ends and whatever
    it is answered with; all it can change in the document is the content
    of the elements found under the four counter ids; it does not
    navigate; and at most it logs its one warning. *)
Theorem updateKPIs_always_ends (net : Network) (w : World) :
  exists w' warned,
    run_to_end (updateKPIs net) w = (Normal tt, w') /\
    location_href w' = location_href w /\
    map el_id (document w') = map el_id (document w) /\
    map classList (document w') = map classList (document w) /\
    (forall r,
       (forall id, In id kpi_ids -> getElementById id (document w) <> Some r) ->
       nth_error (document w') r = nth_error (document w) r) /\
    history w' =
      (history w ++ [Invoke UpdateKPIs; Fetch stats_url] ++
       if warned : bool then [ConsoleWarn "Could not update KPIs"] else [])%list.
Proof.
  unfold run_to_end, updateKPIs. cbn [settle emit snd].
  match goal with |- context [updateKPIs_resume ?o ?w1] =>
    destruct (updateKPIs_resume_frame o w1)
      as (w' & warned & -> & Hloc & Hids & Hcls & _ & Hframe & Hh) end.
  cbn [document location_href history] in *.
  exists w', warned. split; [reflexivity|]. repeat split; try assumption.
  rewrite Hh. now rewrite <- !app_assoc.
Qed.

(** ** The group, with an invariant *)

Section GroupInvariant.

Variable Inv : list Promise -> World -> Prop.

Hypothesis Inv_deliver :
  forall i ps w, Inv ps w -> Inv (fst (deliver i ps w)) (snd (deliver i ps w)).

Lemma await_all_invariant (arrivals : list nat) :
  forall (ps : list Promise) (w : World),
    Inv ps w ->
    (forall j, pending_at ps j -> In j arrivals) ->
    exists result ps' rest w',
      await_all arrivals ps w = (Some result, ps', rest, w') /\
      Inv ps' w' /\
      (forall j, pending_at ps' j -> In j rest) /\
      match result with
      | Normal _ => forallb is_fulfilled ps' = true
      | Throw e => first_rejection ps' = Some e
      end.
Proof.
  induction arrivals as [|i later IH]; intros ps w Hinv Hcover; simpl.
  - destruct (first_rejection ps) as [e|] eqn:Hrej.
    + exists (Throw e), ps, [], w. repeat split; assumption.
    + assert (Hall : forallb is_fulfilled ps = true)
        by (apply all_settled_and_none_rejected; [exact Hcover|exact Hrej]).
      rewrite Hall. exists (Normal tt), ps, [], w. repeat split; assumption.
  - destruct (first_rejection ps) as [e|] eqn:Hrej.
    + exists (Throw e), ps, (i :: later), w. repeat split; assumption.
    + destruct (forallb is_fulfilled ps) eqn:Hall.
      * exists (Normal tt), ps, (i :: later), w. repeat split; assumption.
      * pose proof (Inv_deliver i ps w Hinv) as Hinv'.
        pose proof (fun j => deliver_pending i j ps w) as Hpend.
        destruct (deliver i ps w) as [ps' w']; simpl in *.
        apply IH; [exact Hinv'|].
        intros j Hj. destruct (Hpend j Hj) as [Hne Hj'].
        destruct (Hcover j Hj') as [Heq|Hin]; [congruence|exact Hin].
Qed.

Lemma drain_members_invariant (arrivals : list nat) :
  forall (ps : list Promise) (w : World),
    Inv ps w ->
    (forall j, pending_at ps j -> In j arrivals) ->
    Inv (fst (drain_members arrivals ps w)) (snd (drain_members arrivals ps w)) /\
    (forall j, ~ pending_at (fst (drain_members arrivals ps w)) j).
Proof.
  induction arrivals as [|i later IH]; intros ps w Hinv Hcover; simpl.
  - split; [exact Hinv|]. intros j Hj. exact (Hcover j Hj).
  - pose proof (Inv_deliver i ps w Hinv) as Hinv'.
    pose proof (fun j => deliver_pending i j ps w) as Hpend.
    destruct (deliver i ps w) as [ps' w']; simpl in *.
    apply IH; [exact Hinv'|].
    intros j Hj. destruct (Hpend j Hj) as [Hne Hj'].
    destruct (Hcover j Hj') as [Heq|Hin]; [congruence|exact Hin].
Qed.

End GroupInvariant.

Lemma drain_as_drain_members (arrivals : list nat) (ps : list Promise) (w : World) :
  drain arrivals ps w = snd (drain_members arrivals ps w).
Proof.
  revert ps w. induction arrivals as [|i later IH]; intros ps w; simpl; [reflexivity|].
  destruct (deliver i ps w) as [ps' w']. apply IH.
Qed.

(** ** Contents and lookups *)

Lemma content_at_update_kept (f : Element -> Element) (m r : Ref) (d : Document) :
  (forall e, content (f e) = content e) ->
  content_at r (update m f d) = content_at r d.
Proof.
  intros Hf. unfold content_at. revert m r.
  induction d as [|e rest IH]; intros [|m] [|r]; simpl; try reflexivity.
  - now rewrite Hf.
  - apply IH.
Qed.

Lemma same_contents_refl (w : World) : same_contents w w.
Proof. split; reflexivity. Qed.

Lemma same_contents_trans (w1 w2 w3 : World) :
  same_contents w1 w2 -> same_contents w2 w3 -> same_contents w1 w3.
Proof.
  intros [Hl1 Hc1] [Hl2 Hc2]. split.
  - intros id. now rewrite Hl2, Hl1.
  - intros r. now rewrite Hc2, Hc1.
Qed.

Lemma same_contents_emit (ev : Event) (w : World) : same_contents w (snd (emit ev w)).
Proof. split; reflexivity. Qed.

Lemma same_contents_setLoading (isLoading : bool) (w : World) :
  same_contents w (snd (setLoading isLoading w)).
Proof.
  unfold setLoading, bind, emit. cbn [document].
  destruct (querySelector_class "dashboard-main" (document w)) as [main|].
  - destruct isLoading; unfold with_document; cbn [snd document]; split;
      first [ intros id; now apply find_index_update
            | intros r; now apply content_at_update_kept ].
  - split; reflexivity.
Qed.

Lemma same_contents_catch_finally (result : Completion unit) (w : World) :
  same_contents w (snd (catch_finally result w)).
Proof.
  unfold catch_finally, bind. destruct result as [[]|e].
  - unfold ret. apply same_contents_setLoading.
  - unfold emit at 1.
    eapply same_contents_trans; [|apply same_contents_setLoading].
    split; reflexivity.
Qed.

Lemma content_of_same (w w' : World) (id : string) :
  same_contents w w' -> content_of id (document w') = content_of id (document w).
Proof.
  intros [Hl Hc]. unfold content_of. rewrite Hl.
  destruct (getElementById id (document w)); [apply Hc|reflexivity].
Qed.

(** The content under an id is the same in two documents that look up
    alike and agree on the element found. *)
Lemma content_of_frame (w w' : World) (id : string) :
  (forall i, getElementById i (document w') = getElementById i (document w)) ->
  (forall r, getElementById id (document w) = Some r ->
     nth_error (document w') r = nth_error (document w) r) ->
  content_of id (document w') = content_of id (document w).
Proof.
  intros Hl Hn. unfold content_of, content_at. rewrite Hl.
  destruct (getElementById id (document w)) as [r|] eqn:Hr; [|reflexivity].
  now rewrite (Hn r eq_refl).
Qed.

Lemma kpi_id_is_not_the_container (id : string) :
  In id kpi_ids -> id <> "appliedJobsTable".
Proof.
  unfold kpi_ids, kpi_keys. cbn [map fst In].
  intros [<-|[<-|[<-|[<-|[]]]]]; discriminate.
Qed.

(** ** The steps of the members *)

Lemma write_kpis_cons (id : string) (v : JsValue) (rest : list (string * JsValue))
    (w : World) :
  write_kpis ((id, v) :: rest) w =
  match getElementById id (document w) with
  | Some el =>
      match to_string v with
      | Normal text =>
          write_kpis rest
            {| document := update el (set_content (TextContent text)) (document w);
               location_href := location_href w;
               history := history w |}
      | Throw e => (Throw e, w)
      end
  | None => write_kpis rest w
  end.
Proof.
  cbn [write_kpis]. unfold bind at 1.
  destruct (getElementById id (document w)); [|reflexivity].
  unfold bind at 1, lift. destruct (to_string v); reflexivity.
Qed.

(** Two runs of the counter loop from worlds that look up alike and agree
    on the content under the ids of a set end alike and still agree. *)
Lemma write_kpis_simulation (ids : list string) (kpiMap : list (string * JsValue)) :
  forall w1 w2,
    (forall id, getElementById id (document w1) = getElementById id (document w2)) ->
    (forall id, In id ids -> content_of id (document w1) = content_of id (document w2)) ->
    fst (write_kpis kpiMap w1) = fst (write_kpis kpiMap w2) /\
    (forall id, In id ids ->
       content_of id (document (snd (write_kpis kpiMap w1)))
       = content_of id (document (snd (write_kpis kpiMap w2)))).
Proof.
  induction kpiMap as [|[id0 v0] rest IH]; intros w1 w2 Hl Hc; [now split|].
  rewrite !write_kpis_cons, (Hl id0).
  destruct (getElementById id0 (document w2)) as [el|] eqn:Hel.
  - destruct (to_string v0) as [text|e].
    + apply IH; cbn [document].
      * intros id. now rewrite !getElementById_set_content.
      * intros id Hid. destruct (String.eqb_spec id0 id) as [<-|Hne].
        -- rewrite !content_of_written; [reflexivity|exact Hel|now rewrite Hl].
        -- rewrite !(content_of_other id0 id); auto. now rewrite Hl.
    + cbn [fst snd]. split; [reflexivity|exact Hc].
  - now apply IH.
Qed.

Lemma updateKPIs_resume_cases (o : FetchOutcome) (w : World) :
  updateKPIs_resume o w =
  match await_json o with
  | Normal stats =>
      match build_kpiMap stats kpi_keys with
      | Normal kpiMap =>
          match write_kpis kpiMap w with
          | (Normal a, w') => (Normal a, w')
          | (Throw _, w') => emit (ConsoleWarn "Could not update KPIs") w'
          end
      | Throw _ => emit (ConsoleWarn "Could not update KPIs") w
      end
  | Throw _ => emit (ConsoleWarn "Could not update KPIs") w
  end.
Proof.
  unfold updateKPIs_resume, try_catch, bind at 1, lift.
  destruct (await_json o); [|reflexivity].
  unfold bind at 1. destruct (build_kpiMap a kpi_keys); reflexivity.
Qed.

Lemma updateKPIs_resume_simulation (ids : list string) (o : FetchOutcome) (w1 w2 : World) :
  (forall id, getElementById id (document w1) = getElementById id (document w2)) ->
  (forall id, In id ids -> content_of id (document w1) = content_of id (document w2)) ->
  forall id, In id ids ->
    content_of id (document (snd (updateKPIs_resume o w1)))
    = content_of id (document (snd (updateKPIs_resume o w2))).
Proof.
  intros Hl Hc. rewrite !updateKPIs_resume_cases.
  destruct (await_json o) as [stats|e]; [|exact Hc].
  destruct (build_kpiMap stats kpi_keys) as [kpiMap|e]; [|exact Hc].
  destruct (write_kpis_simulation ids kpiMap w1 w2 Hl Hc) as [Hres Hcont].
  destruct (write_kpis kpiMap w1) as [r1 w1'], (write_kpis kpiMap w2) as [r2 w2'].
  cbn [fst snd] in *. subst r2. destruct r1 as [[]|e]; exact Hcont.
Qed.

Lemma kpis_alone_document (net : Network) (w0 : World) :
  exists w0',
    document w0' = document w0 /\
    kpis_alone net w0 = snd (updateKPIs_resume (net stats_url) w0').
Proof.
  unfold kpis_alone, run_to_end, updateKPIs. cbn [settle emit snd].
  match goal with |- context [updateKPIs_resume ?o ?w1] =>
    exists w1; split; [reflexivity|];
    destruct (updateKPIs_resume_frame o w1) as (w' & warned & -> & _) end.
  reflexivity.
Qed.

Lemma applied_alone_content (host : Host) (net : Network) (w0 : World) (c : Ref) :
  getElementById "appliedJobsTable" (document w0) = Some c ->
  exists html,
    (forall c w, loadAppliedJobs_resume host c (net applications_url) w
                 = set_innerHTML c html w) /\
    content_of "appliedJobsTable" (document (applied_alone host net w0))
    = Some (Markup html).
Proof.
  intros Hc.
  destruct (loadAppliedJobs_resume_html host (net applications_url)) as (html & Hresume & _).
  exists html. split; [exact Hresume|].
  unfold applied_alone. rewrite (loadAppliedJobs_run host net w0 c html Hc Hresume).
  cbn [snd document]. now apply content_of_written.
Qed.

(** The response for the applications arrives. *)
Lemma applied_step (host : Host) (net : Network) (w0 : World) (pa : Promise) (w : World) :
  same_lookups w0 w ->
  applied_member host net w0 pa w ->
  applied_member host net w0 (fst (settle pa w)) (snd (settle pa w)) /\
  same_lookups w0 (snd (settle pa w)) /\
  (forall id, id <> "appliedJobsTable" ->
     content_of id (document (snd (settle pa w))) = content_of id (document w)).
Proof.
  intros Hl. unfold applied_member.
  destruct (getElementById "appliedJobsTable" (document w0)) as [c|] eqn:Hc.
  - intros [-> | [-> Hdone]].
    + destruct (applied_alone_content host net w0 c Hc) as (html & Hresume & Halone).
      cbn [settle]. rewrite Hresume, set_innerHTML_result. cbn [fst snd document].
      split; [|split].
      * right. split; [reflexivity|]. rewrite Halone.
        apply content_of_written. now rewrite Hl.
      * intros id. cbn [document]. rewrite getElementById_set_content. apply Hl.
      * intros id Hid. apply (content_of_other "appliedJobsTable" id); [congruence|].
        now rewrite Hl.
    + cbn [settle fst snd]. split; [now right|]. split; [exact Hl|reflexivity].
  - intros ->. cbn [settle fst snd]. split; [reflexivity|]. split; [exact Hl|reflexivity].
Qed.

(** The response for the statistics arrives. *)
Lemma kpis_step (net : Network) (w0 : World) (pk : Promise) (w : World) :
  same_lookups w0 w ->
  kpis_member net w0 pk w ->
  kpis_member net w0 (fst (settle pk w)) (snd (settle pk w)) /\
  same_lookups w0 (snd (settle pk w)) /\
  (forall id, ~ In id kpi_ids ->
     content_of id (document (snd (settle pk w))) = content_of id (document w)).
Proof.
  intros Hl [[-> Hbefore] | [-> Hdone]].
  - cbn [settle].
    destruct (updateKPIs_resume_frame (net stats_url) w)
      as (w' & warned & Hrun & _ & _ & _ & Hlook & Hframe & _).
    pose proof (updateKPIs_resume_simulation kpi_ids (net stats_url) w) as Hsim.
    rewrite Hrun in *. cbn [fst snd] in *.
    split; [|split].
    + right. split; [reflexivity|].
      destruct (kpis_alone_document net w0) as (w0' & Hdoc & ->).
      intros id Hid. apply (Hsim w0'); [| |exact Hid].
      * intros i. rewrite Hdoc. apply Hl.
      * intros i Hi. rewrite Hdoc. now apply Hbefore.
    + intros id. rewrite Hlook. apply Hl.
    + intros id Hid. apply content_of_frame; [exact Hlook|].
      intros r Hr. apply Hframe. intros kid Hkid Hk.
      assert (kid <> id) by (intros ->; contradiction).
      exact (getElementById_distinct kid id _ r H Hk Hr).
  - cbn [settle fst snd]. split; [now right|]. split; [exact Hl|reflexivity].
Qed.

Lemma notifications_step (b : Collaborator) (pn : Promise) (w : World) :
  notifications_member b pn ->
  notifications_member b (fst (settle pn w)) /\ snd (settle pn w) = w.
Proof.
  destruct b; cbn [notifications_member]; try contradiction.
  - intros ->. now split.
  - intros ->. now split.
  - intros [-> | ->]; cbn; split; auto.
  - intros [-> | ->]; cbn; split; auto.
Qed.

Lemma counters_kept (w0 w w' : World) :
  (forall id, id <> "appliedJobsTable" ->
     content_of id (document w') = content_of id (document w)) ->
  (counters_as_in w0 w -> counters_as_in w0 w').
Proof.
  intros Hkeep Hc id Hid. rewrite Hkeep; [now apply Hc|].
  now apply kpi_id_is_not_the_container.
Qed.

Lemma deliver_nil (i : nat) (w : World) : deliver i [] w = ([], w).
Proof. now destruct i. Qed.

Lemma group_invariant_deliver (host : Host) (net : Network) (b : Collaborator)
    (w0 : World) (i : nat) (ps : list Promise) (w : World) :
  group_invariant host net b w0 ps w ->
  group_invariant host net b w0 (fst (deliver i ps w)) (snd (deliver i ps w)).
Proof.
  intros (Hl & pa & pn & pk & -> & Ha & Hn & Hk).
  destruct i as [|[|[|i]]]; cbn [deliver].
  - destruct (applied_step host net w0 pa w Hl Ha) as (Ha' & Hl' & Hkeep).
    destruct (settle pa w) as [pa' w']. cbn [fst snd] in *.
    split; [exact Hl'|]. exists pa', pn, pk. repeat split; try assumption.
    destruct Hk as [[-> Hc] | [-> Hc]]; [left|right]; (split; [reflexivity|]);
      exact (counters_kept _ w w' Hkeep Hc).
  - destruct (notifications_step b pn w Hn) as (Hn' & Hw).
    destruct (settle pn w) as [pn' w']. cbn [fst snd] in *. subst w'.
    split; [exact Hl|]. exists pa, pn', pk. repeat split; assumption.
  - destruct (kpis_step net w0 pk w Hl Hk) as (Hk' & Hl' & Hkeep).
    destruct (settle pk w) as [pk' w']. cbn [fst snd] in *.
    split; [exact Hl'|]. exists pa, pn, pk'. repeat split; try assumption.
    unfold applied_member in *.
    destruct (getElementById "appliedJobsTable" (document w0)); [|exact Ha].
    destruct Ha as [-> | [-> Hdone]]; [now left|right]. split; [reflexivity|].
    rewrite Hkeep; [exact Hdone|].
    intros Hin. exact (kpi_id_is_not_the_container _ Hin eq_refl).
  - rewrite deliver_nil. cbn [fst snd].
    split; [exact Hl|]. exists pa, pn, pk. repeat split; assumption.
Qed.

Lemma lone_invariant_deliver (host : Host) (net : Network) (w0 : World)
    (i : nat) (ps : list Promise) (w : World) :
  lone_invariant host net w0 ps w ->
  lone_invariant host net w0 (fst (deliver i ps w)) (snd (deliver i ps w)).
Proof.
  intros (Hl & Hc & pa & -> & Ha).
  destruct i as [|i]; cbn [deliver].
  - destruct (applied_step host net w0 pa w Hl Ha) as (Ha' & Hl' & Hkeep).
    destruct (settle pa w) as [pa' w']. cbn [fst snd] in *.
    split; [exact Hl'|]. split; [exact (counters_kept _ w w' Hkeep Hc)|].
    now exists pa'.
  - rewrite deliver_nil. cbn [fst snd].
    split; [exact Hl|]. split; [exact Hc|]. now exists pa.
Qed.

(** Neither invariant looks at anything but lookups and contents. *)
Lemma applied_member_same (host : Host) (net : Network) (w0 : World) (p : Promise)
    (w w' : World) :
  same_contents w w' -> applied_member host net w0 p w -> applied_member host net w0 p w'.
Proof.
  intros Hs. unfold applied_member.
  destruct (getElementById "appliedJobsTable" (document w0)); [|tauto].
  intros [-> | [-> H]]; [now left|right]. split; [reflexivity|].
  now rewrite (content_of_same w w' _ Hs).
Qed.

Lemma counters_same (w0 w w' : World) :
  same_contents w w' -> counters_as_in w0 w -> counters_as_in w0 w'.
Proof.
  intros Hs Hc id Hid. rewrite (content_of_same w w' _ Hs). now apply Hc.
Qed.

Lemma same_lookups_same (w0 w w' : World) :
  same_contents w w' -> same_lookups w0 w -> same_lookups w0 w'.
Proof. intros [Hl _] H id. now rewrite Hl. Qed.

Lemma group_invariant_same (host : Host) (net : Network) (b : Collaborator)
    (w0 : World) (ps : list Promise) (w w' : World) :
  same_contents w w' ->
  group_invariant host net b w0 ps w -> group_invariant host net b w0 ps w'.
Proof.
  intros Hs (Hl & pa & pn & pk & -> & Ha & Hn & Hk).
  split; [exact (same_lookups_same _ _ _ Hs Hl)|].
  exists pa, pn, pk. repeat split; try assumption.
  - exact (applied_member_same _ _ _ _ _ _ Hs Ha).
  - destruct Hk as [[-> Hc] | [-> Hc]]; [left|right]; (split; [reflexivity|]);
      exact (counters_same _ _ _ Hs Hc).
Qed.

Lemma lone_invariant_same (host : Host) (net : Network) (w0 : World)
    (ps : list Promise) (w w' : World) :
  same_contents w w' ->
  lone_invariant host net w0 ps w -> lone_invariant host net w0 ps w'.
Proof.
  intros Hs (Hl & Hc & pa & -> & Ha).
  split; [exact (same_lookups_same _ _ _ Hs Hl)|].
  split; [exact (counters_same _ _ _ Hs Hc)|].
  exists pa. split; [reflexivity|exact (applied_member_same _ _ _ _ _ _ Hs Ha)].
Qed.

(** ** The loader, step by step *)

Lemma loadAppliedJobs_call (host : Host) (net : Network) (w : World) :
  loadAppliedJobs host net w =
  (match getElementById "appliedJobsTable" (document w) with
   | Some c => Pending (loadAppliedJobs_resume host c (net applications_url))
   | None => Fulfilled
   end,
   {| document := document w;
      location_href := location_href w;
      history :=
        (history w ++ Invoke LoadAppliedJobs ::
           match getElementById "appliedJobsTable" (document w) with
           | Some _ => [Fetch applications_url]
           | None => []
           end)%list |}).
Proof.
  unfold loadAppliedJobs. cbn [emit snd document].
  destruct (getElementById "appliedJobsTable" (document w)); cbn [history];
    [now rewrite <- app_assoc|reflexivity].
Qed.


Section LoaderRun.

Variable Inv : list Promise -> World -> Prop.

Hypothesis Inv_deliver :
  forall i ps w, Inv ps w -> Inv (fst (deliver i ps w)) (snd (deliver i ps w)).

Hypothesis Inv_same :
  forall ps w w', same_contents w w' -> Inv ps w -> Inv ps w'.

(** The loader resumes and the rest of the responses are handled. *)
Lemma resume_loader_run (result : Completion unit) (started : list Promise)
    (arrivals : list nat) (w : World) :
  Inv started w ->
  (forall j, pending_at started j -> In j arrivals) ->
  let r := resume_loader result started arrivals w in
  outcome r = Some (Normal tt) /\
  history (at_return r) =
    (history w ++
     match result with
     | Throw e => [ConsoleError sync_failed e]
     | Normal _ => []
     end ++ [Invoke (SetLoading false)])%list /\
  same_contents w (at_return r) /\
  exists members,
    Inv members (afterwards r) /\ (forall j, ~ pending_at members j).
Proof.
  intros Hinv Hcover. unfold resume_loader.
  pose proof (same_contents_catch_finally result w) as Hsame.
  destruct (catch_finally_spec result w) as (w' & Hrun & Hh & _).
  rewrite Hrun in *. cbn [outcome at_return afterwards snd] in *.
  split; [reflexivity|]. split; [exact Hh|]. split; [exact Hsame|].
  rewrite drain_as_drain_members.
  destruct (drain_members_invariant Inv Inv_deliver arrivals started w'
              (Inv_same _ _ _ Hsame Hinv) Hcover) as [Hend Hnone].
  now exists (fst (drain_members arrivals started w')).
Qed.

(** The group is awaited, the loader resumes, the rest is handled. *)
Lemma await_group_run (group : list Promise) (arrivals : list nat) (w : World) :
  Inv group w ->
  (forall j, pending_at group j -> In j arrivals) ->
  Forall (well_behaved is_warning) group ->
  let r := await_group group arrivals w in
  exists (result : Completion unit) warnings,
    outcome r = Some (Normal tt) /\
    history (at_return r) =
      (history w ++ [AwaitAll] ++ warnings ++
       [AllSettled match result with Normal _ => true | Throw _ => false end] ++
       match result with
       | Throw e => [ConsoleError sync_failed e]
       | Normal _ => []
       end ++ [Invoke (SetLoading false)])%list /\
    forallb is_warning warnings = true /\
    (exists members,
        Inv members (at_return r) /\
        match result with
        | Normal _ => forallb is_fulfilled members = true
        | Throw e => first_rejection members = Some e
        end) /\
    exists members,
      Inv members (afterwards r) /\ (forall j, ~ pending_at members j).
Proof.
  intros Hinv Hcover Hgroup. unfold await_group.
  set (w1 := snd (emit AwaitAll w)).
  assert (Hinv1 : Inv group w1) by (apply (Inv_same group w); [apply same_contents_emit|exact Hinv]).
  destruct (await_all_invariant Inv Inv_deliver arrivals group w1 Hinv1 Hcover)
    as (result & members & rest & w2 & Hrun & Hinv2 & Hcover2 & Hresult).
  destruct (await_all_settles is_warning arrivals group w1 Hcover Hgroup)
    as (result' & members' & rest' & w2' & Hrun' & (_ & warnings & Hh2 & Hwarn) & _).
  rewrite Hrun in Hrun'. injection Hrun' as <- <- <- <-.
  rewrite Hrun.
  set (ok := match result with Normal _ => true | Throw _ => false end).
  set (w3 := snd (emit (AllSettled ok) w2)).
  assert (Hinv3 : Inv members w3)
    by (apply (Inv_same members w2); [apply same_contents_emit|exact Hinv2]).
  destruct (resume_loader_run result members rest w3 Hinv3 Hcover2)
    as (Hout & Hh & Hsame & Hend).
  exists result, warnings.
  split; [exact Hout|]. split; [|split; [exact Hwarn|split; [|exact Hend]]].
  - rewrite Hh. unfold w3. cbn [emit snd history]. rewrite Hh2.
    unfold w1. cbn [emit snd history]. now rewrite <- !app_assoc.
  - exists members. split; [|exact Hresult].
    exact (Inv_same _ _ _ Hsame Hinv3).
Qed.

End LoaderRun.

(** The first two steps of every call of the loader. *)
Lemma loader_first_steps (host : Host) (net : Network) (w : World) :
  exists w1 pa w2,
    setLoading true w = (Normal tt, w1) /\
    loadAppliedJobs host net w1 = (pa, w2) /\
    history w2 =
      (history w ++ [Invoke (SetLoading true); Invoke LoadAppliedJobs] ++
       match getElementById "appliedJobsTable" (document w) with
       | Some _ => [Fetch applications_url]
       | None => []
       end)%list /\
    same_contents w w2 /\
    applied_member host net w pa w2 /\
    well_behaved no_event pa.
Proof.
  pose proof (same_contents_setLoading true w) as Hsame.
  destruct (setLoading_spec true w) as (w1 & Hrun & Hh1 & Hids & _).
  rewrite Hrun in Hsame. cbn [snd] in Hsame.
  destruct (loadAppliedJobs_well_behaved host net w1) as (pa & w2 & Hcall & Hpa & Hdoc & _).
  exists w1, pa, w2. split; [exact Hrun|]. split; [exact Hcall|].
  rewrite loadAppliedJobs_call in Hcall. injection Hcall as Hpa' Hw2.
  split; [|split; [|split; [|exact Hpa]]].
  - rewrite <- Hw2. cbn [history]. rewrite Hh1, Hids. now rewrite <- !app_assoc.
  - destruct Hsame as [Hl Hc]. split.
    + intros id. rewrite Hdoc. apply Hl.
    + intros r. rewrite Hdoc. apply Hc.
  - unfold applied_member. rewrite <- Hpa', Hids.
    destruct (getElementById "appliedJobsTable" (document w)); [now left|reflexivity].
Qed.

Lemma counters_as_in_same (w w' : World) : same_contents w w' -> counters_as_in w w'.
Proof. intros Hs id _. exact (content_of_same w w' id Hs). Qed.

(** How the group of a fulfilling or rejecting [loadNotifications] can
    settle. *)
Lemma group_result (host : Host) (net : Network) (self : Controller) (b : Collaborator)
    (w0 : World) (members : list Promise) (w : World) (result : Completion unit) :
  loadNotifications self = Some b ->
  group_invariant host net b w0 members w ->
  match result with
  | Normal _ => forallb is_fulfilled members = true
  | Throw e => first_rejection members = Some e
  end ->
  match result with
  | Normal _ => sync_error self = None /\ fulfils self = true
  | Throw e => sync_error self = Some e /\ fulfils self = false
  end.
Proof.
  intros Hb (_ & pa & pn & pk & -> & Ha & Hn & Hk) Hresult.
  unfold sync_error, fulfils. rewrite Hb.
  assert (Hpa : pa = Fulfilled \/ exists k, pa = Pending k).
  { unfold applied_member in Ha.
    destruct (getElementById "appliedJobsTable" (document w0)); [|now left].
    destruct Ha as [-> | [-> _]]; [right; eexists; reflexivity|now left]. }
  assert (Hpk : pk = Fulfilled \/ exists k, pk = Pending k).
  { destruct Hk as [[-> _] | [-> _]]; [right; eexists; reflexivity|now left]. }
  destruct result as [[]|e].
  - cbn [forallb] in Hresult.
    apply andb_prop in Hresult. destruct Hresult as [_ Hrest].
    apply andb_prop in Hrest. destruct Hrest as [Hpn _].
    destruct b; cbn [notifications_member] in Hn; try contradiction.
    + now split.
    + subst pn. discriminate.
    + now split.
    + destruct Hn as [-> | ->]; discriminate.
  - assert (Hpn : pn = Rejected e).
    { destruct Hpa as [-> | [k ->]], Hpk as [-> | [k' ->]]; cbn [first_rejection] in Hresult;
        destruct pn; try discriminate; congruence. }
    subst pn.
    destruct b as [e0| |e0| |e0]; cbn [notifications_member] in Hn.
    + contradiction.
    + discriminate.
    + injection Hn as ->. now split.
    + destruct Hn as [Hn | Hn]; discriminate.
    + destruct Hn as [Hn | Hn]; [discriminate|]. injection Hn as ->. now split.
Qed.

(** A call of the loader when [loadNotifications] is there and returns. *)
Lemma loadDashboardData_built (self : Controller) (host : Host) (net : Network)
    (schedule : list nat) (w : World) (b : Collaborator) :
  loadNotifications self = Some b ->
  group_built self = true ->
  let r := loadDashboardData self host net schedule w in
  exists warnings,
    outcome r = Some (Normal tt) /\
    history (at_return r) =
      (history w ++ [Invoke (SetLoading true); Invoke LoadAppliedJobs] ++
       match getElementById "appliedJobsTable" (document w) with
       | Some _ => [Fetch applications_url]
       | None => []
       end ++
       [Invoke LoadNotifications; Invoke UpdateKPIs; Fetch stats_url; AwaitAll] ++
       warnings ++ [AllSettled (fulfils self)] ++
       match sync_error self with
       | Some e => [ConsoleError sync_failed e]
       | None => []
       end ++ [Invoke (SetLoading false)])%list /\
    forallb is_warning warnings = true /\
    exists members,
      group_invariant host net b w members (afterwards r) /\
      (forall j, ~ pending_at members j).
Proof.
  intros Hb Hbuilt. unfold loadDashboardData.
  destruct (loader_first_steps host net w)
    as (w1 & pa & w2 & -> & Hcall & Hh2 & Hsame2 & Ha & Hpa).
  cbn [snd]. rewrite Hcall.
  assert (Hcalled : exists pn,
    call_loadNotifications self w2 = (Normal pn, snd (emit (Invoke LoadNotifications) w2)) /\
    notifications_member b pn /\ well_behaved no_event pn).
  { unfold call_loadNotifications, group_built in *. rewrite Hb in *.
    unfold bind, lift, ret. cbn [emit snd].
    destruct b; try discriminate; eexists; (split; [reflexivity|]); cbn.
    - now split.
    - now split.
    - split; [now left|]. intros w0. apply undisturbed_refl.
    - split; [now left|]. intros w0. apply undisturbed_refl. }
  destruct Hcalled as (pn & -> & Hn & Hpn).
  set (w3 := snd (emit (Invoke LoadNotifications) w2)).
  unfold updateKPIs. cbn [emit snd].
  match goal with |- context [await_group ?g ?a ?x] => set (w4 := x); set (group := g) end.
  assert (Hsame4 : same_contents w w4).
  { apply (same_contents_trans w w2 w4); [exact Hsame2|]. split; reflexivity. }
  assert (Hinv : group_invariant host net b w group w4).
  { split; [intros id; apply (proj1 Hsame4)|].
    exists pa, pn, (Pending (updateKPIs_resume (net stats_url))).
    split; [reflexivity|]. split; [|split; [exact Hn|]].
    - apply (applied_member_same host net w pa w2 w4); [split; reflexivity|exact Ha].
    - left. split; [reflexivity|]. now apply counters_as_in_same. }
  destruct (await_group_run (group_invariant host net b w)
              (group_invariant_deliver host net b w)
              (group_invariant_same host net b w)
              group (arrival_order schedule 3) w4 Hinv)
    as (result & warnings & Hout & Hh & Hwarn & (members & Hinv' & Hresult) & Hend).
  - intros j Hj. exact (arrival_order_covers schedule group j Hj).
  - apply Forall_cons; [apply (well_behaved_weaken no_event); [discriminate|exact Hpa]|].
    apply Forall_cons; [apply (well_behaved_weaken no_event); [discriminate|exact Hpn]|].
    apply Forall_cons; [apply updateKPIs_resume_well_behaved|apply Forall_nil].
  - pose proof (group_result host net self b w members _ result Hb Hinv' Hresult) as Hwhich.
    exists warnings. split; [exact Hout|]. split; [|split; [exact Hwarn|exact Hend]].
    rewrite Hh. unfold w4, w3. cbn [emit snd history]. rewrite Hh2.
    destruct result as [[]|e]; destruct Hwhich as [-> ->]; now rewrite <- !app_assoc.
Qed.

(** A call of the loader when [loadNotifications] is missing or throws. *)
Lemma loadDashboardData_not_built (self : Controller) (host : Host) (net : Network)
    (schedule : list nat) (w : World) :
  group_built self = false ->
  let r := loadDashboardData self host net schedule w in
  exists e,
    sync_error self = Some e /\
    outcome r = Some (Normal tt) /\
    history (at_return r) =
      (history w ++ [Invoke (SetLoading true); Invoke LoadAppliedJobs] ++
       match getElementById "appliedJobsTable" (document w) with
       | Some _ => [Fetch applications_url]
       | None => []
       end ++
       match loadNotifications self with
       | Some _ => [Invoke LoadNotifications]
       | None => []
       end ++
       [ConsoleError sync_failed e; Invoke (SetLoading false)])%list /\
    same_contents w (at_return r) /\
    exists members,
      lone_invariant host net w members (afterwards r) /\
      (forall j, ~ pending_at members j).
Proof.
  intros Hbuilt. unfold loadDashboardData.
  destruct (loader_first_steps host net w)
    as (w1 & pa & w2 & -> & Hcall & Hh2 & Hsame2 & Ha & Hpa).
  cbn [snd]. rewrite Hcall.
  assert (Hcalled : exists e w3,
    call_loadNotifications self w2 = (Throw e, w3) /\
    sync_error self = Some e /\ same_contents w2 w3 /\
    history w3 = (history w2 ++ match loadNotifications self with
                                | Some _ => [Invoke LoadNotifications]
                                | None => []
                                end)%list).
  { unfold call_loadNotifications, group_built, sync_error in *.
    unfold bind, lift, ret.
    destruct (loadNotifications self) as [[e| |e| |e]|]; try discriminate.
    - exists e. eexists. split; [reflexivity|]. split; [reflexivity|].
      split; [split; reflexivity|reflexivity].
    - eexists. exists w2. split; [reflexivity|]. split; [reflexivity|].
      split; [apply same_contents_refl|now rewrite app_nil_r]. }
  destruct Hcalled as (e & w3 & -> & Herr & Hsame3 & Hh3).
  assert (Hsame : same_contents w w3) by exact (same_contents_trans _ _ _ Hsame2 Hsame3).
  assert (Hinv : lone_invariant host net w [pa] w3).
  { split; [intros id; apply (proj1 Hsame)|].
    split; [now apply counters_as_in_same|].
    exists pa. split; [reflexivity|].
    exact (applied_member_same host net w pa w2 w3 Hsame3 Ha). }
  destruct (resume_loader_run (lone_invariant host net w)
              (lone_invariant_deliver host net w)
              (lone_invariant_same host net w)
              (Throw e) [pa] (arrival_order schedule 1) w3 Hinv)
    as (Hout & Hh & Hsame' & Hend).
  - intros j Hj. exact (arrival_order_covers schedule [pa] j Hj).
  - exists e. split; [exact Herr|]. split; [exact Hout|].
    split; [|split; [exact (same_contents_trans _ _ _ Hsame Hsame')|exact Hend]].
    rewrite Hh, Hh3, Hh2. now rewrite <- !app_assoc.
Qed.

Lemma no_errors_among_warnings (events : list Event) :
  forallb is_warning events = true -> filter is_error events = [].
Proof.
  induction events as [|ev rest IH]; simpl; [reflexivity|].
  intros H. apply andb_prop in H. destruct H as [Hev Hrest].
  destruct ev; try discriminate. simpl. now apply IH.
Qed.

Lemma group_built_collaborator (self : Controller) :
  group_built self = true -> exists b, loadNotifications self = Some b.
Proof.
  unfold group_built. destruct (loadNotifications self) as [b|]; [|discriminate].
  intros _. now exists b.
Qed.

(** The member for the applications, once it waits no more. *)
Lemma applied_member_settled (host : Host) (net : Network) (w0 : World)
    (p : Promise) (w : World) :
  same_lookups w0 w ->
  applied_member host net w0 p w ->
  (forall k, p <> Pending k) ->
  content_of "appliedJobsTable" (document w)
  = content_of "appliedJobsTable" (document (applied_alone host net w0)).
Proof.
  intros Hl Ha Hp. unfold applied_member in Ha.
  destruct (getElementById "appliedJobsTable" (document w0)) as [c|] eqn:Hc.
  - destruct Ha as [-> | [_ H]]; [|exact H]. now elim (Hp _ eq_refl).
  - unfold applied_alone, run_to_end. rewrite loadAppliedJobs_call, Hc.
    cbn [settle snd document]. unfold content_of. now rewrite Hl, Hc.
Qed.

(** ** The loader and its catch *)

(** X10: the [catch] of the loader fires, once, when [loadNotifications] is
    missing, throws, or returns a promise that rejects, and it logs that
    error; otherwise no error is logged at all, during the call or after
    it, however the two requests end and in whatever order: the two
    fetching methods never make the [catch] fire. *)
Theorem sync_failure_comes_from_loadNotifications_only (self : Controller) (host : Host)
    (net : Network) (schedule : list nat) (w : World) :
  let r := loadDashboardData self host net schedule w in
  exists events later,
    history (at_return r) = (history w ++ events)%list /\
    history (afterwards r) = (history (at_return r) ++ later)%list /\
    filter is_error (events ++ later) =
      match sync_error self with
      | Some e => [ConsoleError sync_failed e]
      | None => []
      end.
Proof.
  destruct (loadDashboardData_shape self host net schedule w)
    as (_ & _ & _ & (_ & later & Hlater & Hwarn) & _).
  cbv zeta. destruct (group_built self) eqn:Hbuilt.
  - destruct (group_built_collaborator self Hbuilt) as (b & Hb).
    destruct (loadDashboardData_built self host net schedule w b Hb Hbuilt)
      as (warnings & _ & Hh & Hwarnings & _).
    eexists _, later. split; [exact Hh|]. split; [exact Hlater|].
    rewrite !filter_app, (no_errors_among_warnings _ Hwarn),
      (no_errors_among_warnings _ Hwarnings).
    destruct (getElementById "appliedJobsTable" (document w));
      destruct (sync_error self); reflexivity.
  - destruct (loadDashboardData_not_built self host net schedule w Hbuilt)
      as (e & Herr & _ & Hh & _).
    eexists _, later. split; [exact Hh|]. split; [exact Hlater|].
    rewrite !filter_app, (no_errors_among_warnings _ Hwarn), Herr.
    destruct (getElementById "appliedJobsTable" (document w));
      destruct (loadNotifications self); reflexivity.
Qed.

(** ** The page after the loader *)

(** X11: when [loadNotifications] is missing or throws, the call completes, with
    the loading flag cleared, before anything has been written: every
    element shows what it showed.  The table is filled in afterwards, when
    its response arrives, as [loadAppliedJobs] alone would have filled it;
    the four counters keep what they showed. *)
Theorem table_is_filled_after_the_flag_is_cleared (self : Controller) (host : Host)
    (net : Network) (schedule : list nat) (w : World) :
  group_built self = false ->
  let r := loadDashboardData self host net schedule w in
  (forall id, content_of id (document (at_return r)) = content_of id (document w)) /\
  is_loading (at_return r) = false /\
  content_of "appliedJobsTable" (document (afterwards r))
  = content_of "appliedJobsTable" (document (snd (run_to_end (loadAppliedJobs host net) w))) /\
  (forall id, In id kpi_ids ->
     content_of id (document (afterwards r)) = content_of id (document w)).
Proof.
  intros Hbuilt.
  destruct (loadDashboardData_shape self host net schedule w) as (_ & _ & Hflag & _).
  destruct (loadDashboardData_not_built self host net schedule w Hbuilt)
    as (e & _ & _ & _ & Hsame & members & (Hl & Hc & pa & -> & Ha) & Hnone).
  cbv zeta. split; [intros id; exact (content_of_same _ _ id Hsame)|].
  split; [exact Hflag|]. split; [|exact Hc].
  apply (applied_member_settled host net w pa _ Hl Ha).
  intros k ->. exact (Hnone O I).
Qed.

Lemma table_is_filled_after_the_flag_is_cleared_witness :
  let net := answering (Body (JArr [])) (Body sample_stats) in
  let r := loadDashboardData as_defined utc_browser net [] (world_of sample_page) in
  group_built as_defined = false /\
  content_of "appliedJobsTable" (document (at_return r)) = Some (Markup "") /\
  is_loading (at_return r) = false /\
  content_of "appliedJobsTable" (document (afterwards r))
  = Some (Markup (empty_state_markup "📋" "No applications yet"
                    "Start browsing jobs to apply!")) /\
  content_of "kpiTotalApplications" (document (afterwards r)) = Some (Markup "12").
Proof.
  intros net r.
  destruct (table_is_filled_after_the_flag_is_cleared as_defined utc_browser net []
              (world_of sample_page) eq_refl) as (Hreturn & Hflag & Htable & Hcounters).
  split; [reflexivity|].
  split; [exact (Hreturn "appliedJobsTable")|]. split; [exact Hflag|].
  split; [exact Htable|].
  exact (Hcounters "kpiTotalApplications" (or_introl eq_refl)).
Defined.

(** X12: when [loadNotifications] is there and returns, then, whatever it
    returns, however the two requests end and in whatever order the
    responses arrive, once they have all been handled the container shows
    what [loadAppliedJobs] alone leaves in it and the four counters show
    what [updateKPIs] alone leaves in them. *)
Theorem page_is_the_same_in_every_arrival_order (self : Controller) (host : Host)
    (net : Network) (schedule : list nat) (w : World) :
  group_built self = true ->
  let r := loadDashboardData self host net schedule w in
  content_of "appliedJobsTable" (document (afterwards r))
  = content_of "appliedJobsTable" (document (snd (run_to_end (loadAppliedJobs host net) w))) /\
  (forall id, In id kpi_ids ->
     content_of id (document (afterwards r))
     = content_of id (document (snd (run_to_end (updateKPIs net) w)))).
Proof.
  intros Hbuilt.
  destruct (group_built_collaborator self Hbuilt) as (b & Hb).
  destruct (loadDashboardData_built self host net schedule w b Hb Hbuilt)
    as (warnings & _ & _ & _ & members & (Hl & pa & pn & pk & -> & Ha & _ & Hk) & Hnone).
  cbv zeta. split.
  - apply (applied_member_settled host net w pa _ Hl Ha).
    intros k ->. exact (Hnone O I).
  - destruct Hk as [[-> _] | [_ Hdone]]; [|exact Hdone].
    exfalso. exact (Hnone 2%nat I).
Qed.

Lemma page_is_the_same_in_every_arrival_order_witness :
  let self := {| loadNotifications := Some (RejectsLater CollaboratorError) |} in
  let net := answering (Body (JArr [])) (Body sample_stats) in
  let r := loadDashboardData self utc_browser net [2%nat; 1%nat] (world_of sample_page) in
  group_built self = true /\
  content_of "appliedJobsTable" (document (afterwards r))
  = Some (Markup (empty_state_markup "📋" "No applications yet"
                    "Start browsing jobs to apply!")) /\
  content_of "kpiTotalApplications" (document (afterwards r)) = Some (TextContent "4") /\
  content_of "kpiRejectedApplications" (document (afterwards r)) = Some (TextContent "0").
Proof.
  intros self net r.
  destruct (page_is_the_same_in_every_arrival_order self utc_browser net [2%nat; 1%nat]
              (world_of sample_page) eq_refl) as (Htable & Hcounters).
  split; [reflexivity|]. split; [exact Htable|].
  split.
  - exact (Hcounters "kpiTotalApplications" (or_introl eq_refl)).
  - exact (Hcounters "kpiRejectedApplications"
             (or_intror (or_intror (or_intror (or_introl eq_refl))))).
Defined.

(** ** Which records make a row *)

Lemma cbind_normal {A B} (c : Completion A) (k : A -> Completion B) (b : B) :
  cbind c k = Normal b -> exists a, c = Normal a /\ k a = Normal b.
Proof. destruct c as [a|e]; simpl; [intros H; now exists a|discriminate]. Qed.

Lemma formatDate_returns_iff (host : Host) (v : JsValue) :
  (exists s, formatDate host v = Normal s) <-> printable v.
Proof.
  unfold formatDate, printable.
  destruct v as [| |[|]| | |items|fields|b]; cbn [new_Date cbind];
    try (split; intros _; eexists; reflexivity).
  - destruct (to_string (JArr items)) as [s|e]; cbn [cbind];
      split; intros [x Hx]; try discriminate; eexists; reflexivity.
  - destruct (to_string (JObj fields)) as [s|e]; cbn [cbind];
      split; intros [x Hx]; try discriminate; eexists; reflexivity.
  - destruct (to_string (JBuiltin b)) as [s|e]; cbn [cbind];
      split; intros [x Hx]; try discriminate; eexists; reflexivity.
Qed.

Lemma badge_text_iff (v : JsValue) :
  (exists text, cbind (getStatusBadge v) to_string = Normal text) <-> exists s, v = JStr s.
Proof.
  split.
  - intros [text H]. destruct (is_string v) eqn:Hs.
    + destruct v; try discriminate. now eexists.
    + destruct (getStatusBadge_not_string v Hs) as (what & Hthrow).
      rewrite Hthrow in H. discriminate.
  - intros [s ->]. destruct (getStatusBadge_returns s) as (badge & text & -> & Htext).
    now exists text.
Qed.

(** X15: A record makes a row exactly when its status is a string and its
    title, company, date and id convert to text; a missing one of these
    four is [undefined] and does convert.  Any other record throws in the
    callback of [map], which sends the whole table to the error row. *)
Theorem render_row_returns_iff (host : Host) (app : JsValue) :
  (exists row, render_row host app = Normal row) <->
  ((exists s, get_prop app "status" = Normal (JStr s)) /\
   forall key, In key ["job_title"; "company"; "applied_date"; "id"] ->
     exists v, get_prop app key = Normal v /\ printable v).
Proof.
  unfold render_row. split.
  - intros [row H].
    apply cbind_normal in H. destruct H as (title & Htitle & H).
    apply cbind_normal in H. destruct H as (company & Hcompany & H).
    apply cbind_normal in H. destruct H as (badge & Hbadge & H).
    apply cbind_normal in H. destruct H as (date & Hdate & H).
    apply cbind_normal in H. destruct H as (id & Hid & _).
    apply cbind_normal in Htitle. destruct Htitle as (vt & Hvt & Htitle).
    apply cbind_normal in Hcompany. destruct Hcompany as (vc & Hvc & Hcompany).
    apply cbind_normal in Hdate. destruct Hdate as (vd & Hvd & Hdate).
    apply cbind_normal in Hid. destruct Hid as (vi & Hvi & Hid).
    split.
    + destruct (get_prop app "status") as [vs|e] eqn:Hvs; [|discriminate].
      cbn [cbind] in Hbadge.
      destruct (proj1 (badge_text_iff vs) (ex_intro _ badge Hbadge)) as (s & ->).
      now exists s.
    + intros key [<-|[<-|[<-|[<-|[]]]]].
      * exists vt. split; [exact Hvt|now exists title].
      * exists vc. split; [exact Hvc|now exists company].
      * exists vd. split; [exact Hvd|].
        apply (formatDate_returns_iff host). now exists date.
      * exists vi. split; [exact Hvi|now exists id].
  - intros [[s Hs] Hkeys].
    destruct (Hkeys "job_title") as (vt & -> & title & Htitle); [cbn; tauto|].
    destruct (Hkeys "company") as (vc & -> & company & Hcompany); [cbn; tauto|].
    destruct (Hkeys "applied_date") as (vd & -> & Hvd); [cbn; tauto|].
    destruct (Hkeys "id") as (vi & -> & id & Hid); [cbn; tauto|].
    apply (formatDate_returns_iff host) in Hvd. destruct Hvd as (date & Hdate).
    destruct (proj2 (badge_text_iff (JStr s)) (ex_intro _ s eq_refl)) as (badge & Hbadge).
    rewrite Hs. cbn [cbind] in *. rewrite Htitle, Hcompany, Hbadge, Hdate, Hid.
    cbn [cbind]. eexists. reflexivity.
Qed.

Lemma render_row_returns_iff_witness :
  let app := JObj [("status", JStr "pending")] in
  render_row utc_browser app =
  Normal (row_markup "undefined" "undefined" badge_warning "Invalid Date" "undefined") /\
  ~ (exists row, render_row utc_browser application_without_status = Normal row).
Proof.
  intros app. split; [reflexivity|].
  intros H.
  apply (proj1 (render_row_returns_iff utc_browser application_without_status)) in H.
  destruct H as [[s Hs] _]. discriminate Hs.
Defined.
